(** * clone-themes.py: a shallow embedding and its specification

    The script fetches the WordPress repository into [temp-wp], copies the
    entries of [temp-wp/wp-content/themes] into [themes] (skipping names that
    are already there), removes [temp-wp] and finally fixes ownership and
    permissions of [themes] through [/bin/zsh].

    The embedding has three layers:
    - [FS]: a tree model of the part of the file system the script touches,
      with the path operations of the Python library calls it makes;
    - [Py]: exceptions, the state-and-exception monad of a running script and
      the library calls ([Path.mkdir], [Path.iterdir], [shutil.copytree],
      [shutil.copy2], [shutil.rmtree], [subprocess.run]);
    - [Script]: the five functions of [clone-themes.py], line by line. *)

From Stdlib Require Import List String ZArith Bool.
From Stdlib Require Import DecimalString.
Import ListNotations.
Open Scope string_scope.
Open Scope Z_scope.
#[local] Set Warnings "-register-all".

(* ================================================================= *)
(** ** File-system model *)

Module FS.

(** What [os.stat] reports and the script can change: the owner
    ([chown]), the permission bits ([chmod]) and the modification time.
    [shutil.copystat] carries the last two over to a copy; the owner of a
    copy is the user who made it. The model does not advance the
    modification time of a directory when an entry is linked into it or
    unlinked from it. *)
Record stat : Type := mkStat {
  st_owner : string;
  st_mode : Z;
  st_mtime : Z
}.

(** A directory entry is a regular file or a directory; a directory lists
    its children by name, in the order the operating system reports them.
    Symbolic links and special files are outside the model. *)
Inductive node : Type :=
| File (st : stat) (data : string)
| Dir (st : stat) (children : list (string * node)).

Definition entries : Type := list (string * node).

(** A relative path, as its components: [Path("a") / "b"] is [["a"; "b"]]. *)
Definition path : Type := list string.

Definition joinpath (p : path) (c : string) : path := (p ++ [c])%list.

Definition str_path (p : path) : string := String.concat "/" p.

Definition is_dir_node (n : node) : bool :=
  match n with Dir _ _ => true | File _ _ => false end.

(** *** Directory listings *)

(** The entry of a name in a listing (the first one, should the listing
    ever repeat a name). *)
Fixpoint assoc (k : string) (l : entries) : option node :=
  match l with
  | [] => None
  | (k', n) :: l' => if String.eqb k k' then Some n else assoc k l'
  end.

(** Creating or replacing the entry of a name: replaced where it stands,
    otherwise added at the end. *)
Fixpoint set_assoc (k : string) (n : node) (l : entries) : entries :=
  match l with
  | [] => [(k, n)]
  | (k', n') :: l' =>
      if String.eqb k k' then (k, n) :: l' else (k', n') :: set_assoc k n l'
  end.

(** Unlinking a name. *)
Fixpoint del_assoc (k : string) (l : entries) : entries :=
  match l with
  | [] => []
  | (k', n') :: l' =>
      if String.eqb k k' then del_assoc k l' else (k', n') :: del_assoc k l'
  end.

(** Rewriting the entry of a name, when there is one. *)
Fixpoint map_entry (k : string) (f : node -> node) (l : entries) : entries :=
  match l with
  | [] => []
  | (k', n') :: l' =>
      if String.eqb k k' then (k', f n') :: l' else (k', n') :: map_entry k f l'
  end.

Definition names (l : entries) : list string := map fst l.

(** *** Path resolution *)

(** The three outcomes of resolving a path that matter to the script: the
    node, [ENOENT] (a component is missing) and [ENOTDIR] (a component that
    must be a directory is a file). The empty path names nothing. *)
Inductive lookup_result : Type :=
| Found (n : node)
| NoEnt
| NotDir.

Fixpoint resolve (cwd : entries) (p : path) : lookup_result :=
  match p with
  | [] => NoEnt
  | c :: p' =>
      match assoc c cwd with
      | None => NoEnt
      | Some n =>
          match p' with
          | [] => Found n
          | _ :: _ =>
              match n with
              | Dir _ cs => resolve cs p'
              | File _ _ => NotDir
              end
          end
      end
  end.

(** [alter f p cwd] rewrites with [f] the listing of the directory at [p]
    ([cwd] itself for the empty path); nothing changes when [p] is not a
    directory. *)
Fixpoint alter (f : entries -> entries) (p : path) (cwd : entries) : entries :=
  match p with
  | [] => f cwd
  | c :: p' =>
      map_entry c
        (fun n => match n with
                  | Dir st cs => Dir st (alter f p' cs)
                  | File _ _ => n
                  end) cwd
  end.

(** Parent directory and last component of a non-empty path. *)
Fixpoint split_last (p : path) : option (path * string) :=
  match p with
  | [] => None
  | [c] => Some ([], c)
  | c :: p' =>
      match split_last p' with
      | Some (d, b) => Some (c :: d, b)
      | None => None
      end
  end.

(** Linking node [n] at path [p] (its parent directory exists). *)
Definition write (p : path) (n : node) (cwd : entries) : entries :=
  match split_last p with
  | Some (d, b) => alter (set_assoc b n) d cwd
  | None => cwd
  end.

(** Unlinking path [p] with everything below it. *)
Definition unlink (p : path) (cwd : entries) : entries :=
  match split_last p with
  | Some (d, b) => alter (del_assoc b) d cwd
  | None => cwd
  end.

(** Rewriting the node at path [p] in place. *)
Definition update (p : path) (f : node -> node) (cwd : entries) : entries :=
  match split_last p with
  | Some (d, b) => alter (map_entry b f) d cwd
  | None => cwd
  end.

(** *** Whole-tree operations *)

Definition set_owner (u : string) (st : stat) : stat :=
  mkStat u (st_mode st) (st_mtime st).

Definition set_mode (m : Z) (st : stat) : stat :=
  mkStat (st_owner st) m (st_mtime st).

(** [chown -R u]: the node and everything below it. *)
Fixpoint chown_R (u : string) (n : node) : node :=
  match n with
  | File st d => File (set_owner u st) d
  | Dir st cs =>
      Dir (set_owner u st) (map (fun kc => (fst kc, chown_R u (snd kc))) cs)
  end.

(** [chmod -R m]: the node and everything below it. *)
Fixpoint chmod_R (m : Z) (n : node) : node :=
  match n with
  | File st d => File (set_mode m st) d
  | Dir st cs =>
      Dir (set_mode m st) (map (fun kc => (fst kc, chmod_R m (snd kc))) cs)
  end.

(** Two trees are identical in contents when they have the same shape, the
    same names in the same order, the same file data and, at every node, the
    same permission bits and modification time. *)
Definition same_meta (a b : stat) : bool :=
  (st_mode a =? st_mode b) && (st_mtime a =? st_mtime b).

Fixpoint identical (a b : node) {struct a} : bool :=
  match a, b with
  | File sa da, File sb db => same_meta sa sb && String.eqb da db
  | Dir sa ca, Dir sb cb =>
      same_meta sa sb &&
      (fix all2 (l : entries) (r : entries) {struct l} : bool :=
         match l, r with
         | [], [] => true
         | (k, x) :: l', (k', y) :: r' =>
             String.eqb k k' && identical x y && all2 l' r'
         | _, _ => false
         end) ca cb
  | _, _ => false
  end.

(** Every node of the tree belongs to [u]. *)
Fixpoint owned_by (u : string) (n : node) : bool :=
  match n with
  | File st _ => String.eqb (st_owner st) u
  | Dir st cs =>
      String.eqb (st_owner st) u &&
      forallb (fun kc => owned_by u (snd kc)) cs
  end.

End FS.

(* ================================================================= *)
(** ** Python run-time model *)

Module Py.
Import FS.

(** The model keeps to the outcomes the script tells apart. It carries
    owners and permission bits but does not enforce them: no call fails for
    lack of access ([PermissionError]) and a copy never stops half-way;
    special permission bits and groups are left out. [git] refuses, fails
    leaving nothing behind, or checks out completely. [print] always
    succeeds and no signal interrupts a call. Statements that would
    otherwise rest on this take the outcome of a step as a hypothesis. *)

(** *** Exceptions *)

Inductive errno : Type := ENOENT | EEXIST | ENOTDIR | EISDIR.

(** The exceptions the library calls of the script raise.
    [OSError ENOENT] is Python's [FileNotFoundError], [OSError EEXIST] its
    [FileExistsError], [OSError ENOTDIR] its [NotADirectoryError] and
    [OSError EISDIR] its [IsADirectoryError]. [KeyboardInterrupt] stands for
    the classes that derive from [BaseException] but not from [Exception]. *)
Inductive exn : Type :=
| CalledProcessError (returncode : Z) (cmd : string)
| OSError (e : errno) (filename : string)
| KeyboardInterrupt.

Definition FileNotFoundError : string -> exn := OSError ENOENT.
Definition FileExistsError : string -> exn := OSError EEXIST.
Definition NotADirectoryError : string -> exn := OSError ENOTDIR.
Definition IsADirectoryError : string -> exn := OSError EISDIR.

(** [isinstance(e, C)] for the three classes named in [except] clauses. *)
Definition is_CalledProcessError (e : exn) : bool :=
  match e with CalledProcessError _ _ => true | _ => false end.

Definition is_FileNotFoundError (e : exn) : bool :=
  match e with OSError ENOENT _ => true | _ => false end.

Definition is_Exception (e : exn) : bool :=
  match e with KeyboardInterrupt => false | _ => true end.

Definition str_Z (z : Z) : string := NilZero.string_of_int (Z.to_int z).

Definition strerror (e : errno) : string :=
  match e with
  | ENOENT => "[Errno 2] No such file or directory"
  | EEXIST => "[Errno 17] File exists"
  | ENOTDIR => "[Errno 20] Not a directory"
  | EISDIR => "[Errno 21] Is a directory"
  end.

(** [str(e)]. *)
Definition str (e : exn) : string :=
  match e with
  | CalledProcessError rc cmd =>
      "Command '" ++ cmd ++ "' returned non-zero exit status " ++ str_Z rc ++ "."
  | OSError en f => strerror en ++ ": '" ++ f ++ "'"
  | KeyboardInterrupt => ""
  end.

(** [repr] of a list of strings, as [CalledProcessError] shows its command. *)
Definition repr_list (l : list string) : string :=
  "[" ++ String.concat ", " (map (fun a => "'" ++ a ++ "'") l) ++ "]".

(** *** The world outside the script *)

(** A program found on the machine: from its arguments and the working
    directory to its exit status and the working directory it leaves. *)
Definition program : Type := list string -> entries -> Z * entries.

Record world : Type := mkWorld {
  user : string;                       (* $USER, the invoking user *)
  umask : Z;
  now : Z;                             (* the clock, for new files *)
  git_installed : bool;                (* [git] is on the PATH *)
  remote : string -> option entries;   (* what a clone of a URL checks out;
                                          [None] when it cannot be fetched *)
  zsh_installed : bool;                (* [/bin/zsh] exists *)
  sudo_installed : bool;
  sudo_granted : bool                  (* [sudo] lets the user act as root *)
}.

(** The [stat] of a directory, of a file, that the user creates. *)
Definition fresh_dir (w : world) : stat :=
  mkStat (user w) (Z.ldiff 511 (umask w)) (now w).      (* 0o777 & ~umask *)

Definition fresh_file (w : world) : stat :=
  mkStat (user w) (Z.ldiff 438 (umask w)) (now w).      (* 0o666 & ~umask *)

(** *** State and exceptions *)

Record state : Type := mkState {
  fs : entries;            (* the listing of the working directory *)
  stdout : list string     (* the lines printed so far *)
}.

Inductive result (A : Type) : Type :=
| Ok (a : A)
| Raise (e : exn).
Arguments Ok {A} a.
Arguments Raise {A} e.

(** A computation reads the world, changes the state and returns or
    raises; the state it leaves is kept when it raises. *)
Definition M (A : Type) : Type := world -> state -> result A * state.

Definition ret {A} (a : A) : M A := fun _ s => (Ok a, s).

Definition bind {A B} (c : M A) (f : A -> M B) : M B :=
  fun w s =>
    match c w s with
    | (Ok a, s') => f a w s'
    | (Raise e, s') => (Raise e, s')
    end.

Definition raise {A} (e : exn) : M A := fun _ s => (Raise e, s).

Definition get_fs : M entries := fun _ s => (Ok (fs s), s).

Definition put_fs (cwd : entries) : M unit :=
  fun _ s => (Ok tt, mkState cwd (stdout s)).

Definition ask : M world := fun w s => (Ok w, s).

Declare Scope py_scope.
Delimit Scope py_scope with py.
Notation "x <- c1 ;; c2" := (bind c1 (fun x => c2))
  (at level 61, c1 at next level, right associativity) : py_scope.
Notation "c1 ;; c2" := (bind c1 (fun _ => c2))
  (at level 61, right associativity) : py_scope.
Open Scope py_scope.

(** [print(s)]. *)
Definition print (line : string) : M unit :=
  fun _ s => (Ok tt, mkState (fs s) (stdout s ++ [line])).

(** [print(a, b)]: the arguments separated by a space. *)
Definition print2 (a b : string) : M unit := print (a ++ " " ++ b).

(** [for x in l: body(x)]. *)
Fixpoint for_each {A} (l : list A) (body : A -> M unit) : M unit :=
  match l with
  | [] => ret tt
  | x :: l' => body x ;; for_each l' body
  end.

(** [try: body  except C1 as e: h1  except C2 as e: h2 ...]: the first
    clause whose class the exception is an instance of handles it; with no
    such clause the exception propagates. *)
Fixpoint select_handler (clauses : list ((exn -> bool) * (exn -> M unit)))
    (e : exn) : M unit :=
  match clauses with
  | [] => raise e
  | (cls, h) :: rest => if cls e then h e else select_handler rest e
  end.

Definition try_except (body : M unit)
    (clauses : list ((exn -> bool) * (exn -> M unit))) : M unit :=
  fun w s =>
    match body w s with
    | (Ok tt, s') => (Ok tt, s')
    | (Raise e, s') => select_handler clauses e w s'
    end.

(** *** pathlib *)

(** [p.name]: the last component. *)
Definition name (p : path) : string := last p "".

(** [p.exists()] and [p.is_dir()]: false when the path cannot be resolved. *)
Definition exists_ (p : path) : M bool :=
  cwd <- get_fs ;;
  ret (match resolve cwd p with Found _ => true | _ => false end).

Definition is_dir (p : path) : M bool :=
  cwd <- get_fs ;;
  ret (match resolve cwd p with Found n => is_dir_node n | _ => false end).

(** The effect of [p.mkdir(parents=True, exist_ok=True)] on a listing:
    every missing directory along [p] is created; an existing directory is
    accepted; a file where a directory is needed is an error, [EEXIST] at
    the last component and [ENOTDIR] before it. *)
Fixpoint makedirs (fresh : stat) (p : path) (cwd : entries) : errno + entries :=
  match p with
  | [] => inl ENOENT
  | c :: p' =>
      match assoc c cwd, p' with
      | None, [] => inr (set_assoc c (Dir fresh []) cwd)
      | None, _ :: _ =>
          match makedirs fresh p' [] with
          | inr cs => inr (set_assoc c (Dir fresh cs) cwd)
          | inl e => inl e
          end
      | Some (Dir _ _), [] => inr cwd
      | Some (Dir st cs), _ :: _ =>
          match makedirs fresh p' cs with
          | inr cs' => inr (set_assoc c (Dir st cs') cwd)
          | inl e => inl e
          end
      | Some (File _ _), [] => inl EEXIST
      | Some (File _ _), _ :: _ => inl ENOTDIR
      end
  end.

Definition mkdir_parents_exist_ok (p : path) : M unit :=
  w <- ask ;;
  cwd <- get_fs ;;
  match makedirs (fresh_dir w) p cwd with
  | inr cwd' => put_fs cwd'
  | inl e => raise (OSError e (str_path p))
  end.

(** [p.iterdir()]: the children of a directory, as paths. *)
Definition iterdir (p : path) : M (list path) :=
  cwd <- get_fs ;;
  match resolve cwd p with
  | Found (Dir _ cs) => ret (map (joinpath p) (names cs))
  | Found (File _ _) => raise (NotADirectoryError (str_path p))
  | NoEnt => raise (FileNotFoundError (str_path p))
  | NotDir => raise (NotADirectoryError (str_path p))
  end.

(** *** shutil *)

(** [shutil.copystat(src, dst)]: permission bits and times of the source
    onto the destination, whose owner stays. *)
Definition copystat (src dst : stat) : stat :=
  mkStat (st_owner dst) (st_mode src) (st_mtime src).

(** What [shutil.copytree] (on a directory) and [shutil.copy2] (on a file)
    build from a source node: a new file with the data of the source, a new
    directory with a replica of each child, and [copystat] on each. *)
Fixpoint replica (w : world) (n : node) : node :=
  match n with
  | File st d => File (copystat st (fresh_file w)) d
  | Dir st cs =>
      Dir (copystat st (fresh_dir w))
          (map (fun kc => (fst kc, replica w (snd kc))) cs)
  end.

(** The directory a new entry at [p] would be linked into exists. *)
Definition parent_is_dir (cwd : entries) (p : path) : bool :=
  match split_last p with
  | Some ([], _) => true
  | Some (d, _) =>
      match resolve cwd d with Found n => is_dir_node n | _ => false end
  | None => false
  end.

(** [shutil.copytree(src, dst)]: [src] must be a directory and [dst] must
    not exist; [dst] is created with its missing parents. *)
Definition copytree (src dst : path) : M unit :=
  w <- ask ;;
  cwd <- get_fs ;;
  match resolve cwd src with
  | Found (Dir st cs) =>
      match resolve cwd dst with
      | Found _ => raise (FileExistsError (str_path dst))
      | NotDir => raise (NotADirectoryError (str_path dst))
      | NoEnt =>
          match makedirs (fresh_dir w) dst cwd with
          | inr cwd' => put_fs (write dst (replica w (Dir st cs)) cwd')
          | inl e => raise (OSError e (str_path dst))
          end
      end
  | Found (File _ _) => raise (NotADirectoryError (str_path src))
  | NoEnt => raise (FileNotFoundError (str_path src))
  | NotDir => raise (NotADirectoryError (str_path src))
  end.

(** [shutil.copy2(src, dst)]: [src] must be a file; a [dst] that is a
    directory stands for the entry [src.name] in it; an existing file is
    overwritten and keeps its owner. *)
Definition copy2 (src dst : path) : M unit :=
  w <- ask ;;
  cwd <- get_fs ;;
  let dst :=
    match resolve cwd dst with
    | Found (Dir _ _) => joinpath dst (name src)
    | _ => dst
    end in
  match resolve cwd src with
  | Found (File st d) =>
      match resolve cwd dst with
      | Found (File st' _) => put_fs (write dst (File (copystat st st') d) cwd)
      | Found (Dir _ _) => raise (IsADirectoryError (str_path dst))
      | NotDir => raise (NotADirectoryError (str_path dst))
      | NoEnt =>
          if parent_is_dir cwd dst
          then put_fs (write dst (replica w (File st d)) cwd)
          else raise (FileNotFoundError (str_path dst))
      end
  | Found (Dir _ _) => raise (IsADirectoryError (str_path src))
  | NoEnt => raise (FileNotFoundError (str_path src))
  | NotDir => raise (NotADirectoryError (str_path src))
  end.

(** [shutil.rmtree(p)]: [p] must be a directory. *)
Definition rmtree (p : path) : M unit :=
  cwd <- get_fs ;;
  match resolve cwd p with
  | Found (Dir _ _) => put_fs (unlink p cwd)
  | Found (File _ _) => raise (NotADirectoryError (str_path p))
  | NoEnt => raise (FileNotFoundError (str_path p))
  | NotDir => raise (NotADirectoryError (str_path p))
  end.

(** *** The external programs *)

(** [git clone --depth=1 url dir]: refuses (status 128) a [dir] that exists
    and is not an empty directory; when the repository cannot be fetched it
    fails (status 128) and leaves the working directory as it found it;
    otherwise [dir] holds the checkout. Any other command line is a usage
    error (status 129). *)
Definition git (w : world) : program :=
  fun args cwd =>
    match args with
    | ["clone"; "--depth=1"; url; dir] =>
        match assoc dir cwd with
        | Some (File _ _) => (128, cwd)
        | Some (Dir _ (_ :: _)) => (128, cwd)
        | Some (Dir st []) =>
            match remote w url with
            | Some tree => (0, set_assoc dir (Dir st tree) cwd)
            | None => (128, cwd)
            end
        | None =>
            match remote w url with
            | Some tree => (0, set_assoc dir (Dir (fresh_dir w) tree) cwd)
            | None => (128, cwd)
            end
        end
    | _ => (129, cwd)
    end.

(** The one command line the script hands to the shell. *)
Definition fix_command : string :=
  "sudo chown -R $USER:$USER themes && chmod -R 775 themes".

(** [sudo chown -R $USER:$USER themes && chmod -R 775 themes]: status 127
    without [sudo], status 1 when [sudo] refuses or [themes] does not exist
    (and [&&] then skips [chmod]); otherwise the tree under [themes] is
    given to the user, who can then set its permission bits. *)
Definition sh_fix (w : world) (cwd : entries) : Z * entries :=
  if negb (sudo_installed w) then (127, cwd)
  else if negb (sudo_granted w) then (1, cwd)
  else
    match assoc "themes" cwd with
    | None => (1, cwd)
    | Some _ =>
        (0, update ["themes"] (chmod_R 509)                  (* 0o775 *)
              (update ["themes"] (chown_R (user w)) cwd))
    end.

(** [/bin/zsh -c command], for the command line of the script. *)
Definition zsh (w : world) : program :=
  fun args cwd =>
    match args with
    | ["-c"; command] =>
        if String.eqb command fix_command then sh_fix w cwd else (127, cwd)
    | _ => (1, cwd)
    end.

(** The executables the script asks for. *)
Definition which (w : world) (exe : string) : option program :=
  if String.eqb exe "git" then
    if git_installed w then Some (git w) else None
  else if String.eqb exe "/bin/zsh" then
    if zsh_installed w then Some (zsh w) else None
  else None.

(** *** subprocess *)

(** The core of [subprocess.run(..., check=True)]: [FileNotFoundError] when
    the executable is not there, [CalledProcessError] when the program
    exits with a status other than zero. *)
Definition run_check (exe : string) (args : list string) (cmd : string)
    : M unit :=
  w <- ask ;;
  match which w exe with
  | None => raise (FileNotFoundError exe)
  | Some prog =>
      cwd <- get_fs ;;
      let (status, cwd') := prog args cwd in
      put_fs cwd' ;;
      if status =? 0 then ret tt else raise (CalledProcessError status cmd)
  end.

(** [subprocess.run(argv, check=True)]. *)
Definition subprocess_run (argv : list string) : M unit :=
  match argv with
  | exe :: args => run_check exe args (repr_list argv)
  | [] => raise (FileNotFoundError "")
  end.

(** [subprocess.run(command, shell=True, check=True, executable=exe)]:
    [exe -c command]. *)
Definition subprocess_run_shell (command : string) (exe : string) : M unit :=
  run_check exe ["-c"; command] command.

End Py.

(* ================================================================= *)
(** ** The script *)

Module Script.
Import FS Py.

(* Constants *)
Definition WP_REPO : string := "https://github.com/WordPress/WordPress.git".
Definition TEMP_DIR : path := ["temp-wp"].
Definition THEMES_TARGET : path := ["themes"].

Declare Scope path_scope.
Delimit Scope path_scope with path.
Notation "p / c" := (joinpath p c) : path_scope.

(** Clone the official WordPress repository into a temporary folder. *)
Definition clone_wordpress_repo : M unit :=
  print "🚀 Cloning WordPress repo..." ;;
  subprocess_run ["git"; "clone"; "--depth=1"; WP_REPO; str_path TEMP_DIR].

(** Copy default themes from the cloned repo into ./themes, skipping
    existing. *)
Definition copy_themes : M unit :=
  let source_themes := (TEMP_DIR / "wp-content" / "themes")%path in
  mkdir_parents_exist_ok THEMES_TARGET ;;
  print "📂 Copying themes to ./themes..." ;;
  items <- iterdir source_themes ;;
  for_each items (fun item =>
    let dest := (THEMES_TARGET / name item)%path in
    e <- exists_ dest ;;
    if (e : bool) then
      print ("⚠️ Skipping existing: " ++ name item)
    else
      d <- is_dir item ;;
      if (d : bool) then copytree item dest else copy2 item dest).

(** Delete the temporary cloned WordPress folder. *)
Definition clean_temp : M unit :=
  print "🧹 Removing temp folder..." ;;
  rmtree TEMP_DIR.

(** Fix ownership and permissions on the ./themes folder using Zsh and
    sudo. *)
Definition fix_theme_permissions : M unit :=
  let command := "sudo chown -R $USER:$USER themes && chmod -R 775 themes" in
  print "🔧 Fixing ownership and permissions on ./themes ..." ;;
  subprocess_run_shell command "/bin/zsh" ;;
  print "✅ Permissions fixed.".

(** The [try] block of [main]. *)
Definition body : M unit :=
  clone_wordpress_repo ;;
  copy_themes ;;
  clean_temp ;;
  fix_theme_permissions ;;
  print "✅ All done!".

(** The message prefixes of the three [except] clauses. *)
Definition command_failed : string := "❌ Command failed: ".
Definition missing_tool : string := "❌ Missing required tool (e.g., git):".
Definition unexpected_error : string := "❌ Unexpected error: ".

(** [main]: the body under its three [except] clauses, in source order. *)
Definition main : M unit :=
  try_except body
    [ (is_CalledProcessError, fun e => print (command_failed ++ str e));
      (is_FileNotFoundError, fun e => print2 missing_tool (str e));
      (is_Exception, fun e => print (unexpected_error ++ str e)) ].

(** [if __name__ == "__main__": main()]: the interpreter exits with
    status 0 when [main] returns and with status 1 when an exception
    leaves it. *)
Definition run (w : world) (s : state) : Z * state :=
  match main w s with
  | (Ok _, s') => (0, s')
  | (Raise _, s') => (1, s')
  end.

End Script.

(* ================================================================= *)
(** ** What the steps compute *)

Module Model.
Import FS Py Script.

(** The directory the copy step reads. *)
Definition source_themes : path :=
  (TEMP_DIR / "wp-content" / "themes")%path.

(** The listing of the destination after the loop of [copy_themes] has
    gone through the names [ys] of a source listing [S], starting from the
    destination listing [T]: a name already in [T] is left alone, any other
    gets the replica of its source entry. *)
Fixpoint copy_into (w : world) (S : entries) (ys : list string) (T : entries)
    : entries :=
  match ys with
  | [] => T
  | y :: ys' =>
      match assoc y T, assoc y S with
      | Some _, _ => copy_into w S ys' T
      | None, Some m => copy_into w S ys' (set_assoc y (replica w m) T)
      | None, None => T
      end
  end.

(** The skip notices the loop prints on the way. *)
Fixpoint notices (w : world) (S : entries) (ys : list string) (T : entries)
    : list string :=
  match ys with
  | [] => []
  | y :: ys' =>
      match assoc y T, assoc y S with
      | Some _, _ => ("⚠️ Skipping existing: " ++ y) :: notices w S ys' T
      | None, Some m => notices w S ys' (set_assoc y (replica w m) T)
      | None, None => []
      end
  end.

(** The body of the loop of [copy_themes]. *)
Definition copy_item (item : path) : M unit :=
  let dest := (THEMES_TARGET / name item)%path in
  e <- exists_ dest ;;
  if (e : bool) then
    print ("⚠️ Skipping existing: " ++ name item)
  else
    d <- is_dir item ;;
    if (d : bool) then copytree item dest else copy2 item dest.

(** The destination directory as [copy_themes] finds it, or makes it:
    nothing when a file is in its place. *)
Definition dest_before (w : world) (cwd : entries) : option (stat * entries) :=
  match assoc "themes" cwd with
  | None => Some (fresh_dir w, [])
  | Some (Dir st T) => Some (st, T)
  | Some (File _ _) => None
  end.

(** The error [Path.iterdir] raises on what a path resolves to, if any. *)
Definition listing_error (r : lookup_result) : option errno :=
  match r with
  | Found (Dir _ _) => None
  | NoEnt => Some ENOENT
  | Found (File _ _) | NotDir => Some ENOTDIR
  end.

(** The command line of the fetch step. *)
Definition clone_argv : list string :=
  ["git"; "clone"; "--depth=1"; WP_REPO; "temp-wp"].

(** The line the handler of [main] prints for an exception it catches. *)
Definition report_line (e : exn) : string :=
  match e with
  | CalledProcessError _ _ => command_failed ++ str e
  | OSError ENOENT _ => missing_tool ++ " " ++ str e
  | _ => unexpected_error ++ str e
  end.

(** The state [main] ends in when its body stopped in [s] with [e]. *)
Definition reported (e : exn) (s : state) : state :=
  mkState (fs s) (stdout s ++ [report_line e]).

(** The four steps of the body, the line each prints when it starts
    ([copy_themes] once the destination directory is there), and their
    order. *)
Inductive step : Type := Fetch | Copy | Cleanup | Fix.

Definition banner (k : step) : string :=
  match k with
  | Fetch => "🚀 Cloning WordPress repo..."
  | Copy => "📂 Copying themes to ./themes..."
  | Cleanup => "🧹 Removing temp folder..."
  | Fix => "🔧 Fixing ownership and permissions on ./themes ..."
  end.

Definition position (k : step) : nat :=
  match k with Fetch => 0 | Copy => 1 | Cleanup => 2 | Fix => 3 end%nat.

Definition later (k j : step) : bool := Nat.ltb (position k) (position j).

(** [fails_at w s k e s']: started in [s], the body gets through the steps
    before [k] and step [k] raises [e], leaving the state [s']. *)
Inductive fails_at (w : world) (s : state) : step -> exn -> state -> Prop :=
| fails_fetch e s' :
    clone_wordpress_repo w s = (Raise e, s') ->
    fails_at w s Fetch e s'
| fails_copy s1 e s' :
    clone_wordpress_repo w s = (Ok tt, s1) ->
    copy_themes w s1 = (Raise e, s') ->
    fails_at w s Copy e s'
| fails_cleanup s1 s2 e s' :
    clone_wordpress_repo w s = (Ok tt, s1) ->
    copy_themes w s1 = (Ok tt, s2) ->
    clean_temp w s2 = (Raise e, s') ->
    fails_at w s Cleanup e s'
| fails_fix s1 s2 s3 e s' :
    clone_wordpress_repo w s = (Ok tt, s1) ->
    copy_themes w s1 = (Ok tt, s2) ->
    clean_temp w s2 = (Ok tt, s3) ->
    fix_theme_permissions w s3 = (Raise e, s') ->
    fails_at w s Fix e s'.

End Model.

(* ================================================================= *)
(** ** Sample worlds and working directories *)

Module Examples.
Import FS Py Script Model.

Definition st_git : stat := mkStat "dev" 420 100.          (* 0o644 *)
Definition st_root : stat := mkStat "root" 493 1.          (* 0o755 *)

(** A checkout with two theme directories and a file under
    [wp-content/themes]. *)
Definition checkout : entries :=
  [("index.php", File st_git "<?php");
   ("wp-content",
    Dir st_git
      [("themes",
        Dir st_git
          [("twentytwenty",
            Dir st_git [("style.css", File st_git "body{}")]);
           ("twentyseventeen",
            Dir st_git [("style.css", File st_git "new")]);
           ("index.php", File st_git "<?php // Silence")])])].

(** A checkout without [wp-content/themes], and one where [wp-content] is
    a file. *)
Definition checkout_no_themes : entries :=
  [("index.php", File st_git "<?php"); ("wp-content", Dir st_git [])].

Definition checkout_flat : entries :=
  [("index.php", File st_git "<?php"); ("wp-content", File st_git "")].

Definition serving (tree : entries) (url : string) : option entries :=
  if String.eqb url WP_REPO then Some tree else None.

(** A machine with every tool, and machines that lack one. *)
Definition world_ok : world :=
  mkWorld "dev" 18 200 true (serving checkout) true true true.

Definition world_no_git : world :=
  mkWorld "dev" 18 200 false (serving checkout) true true true.

Definition world_no_zsh : world :=
  mkWorld "dev" 18 200 true (serving checkout) false true true.

Definition world_no_sudo : world :=
  mkWorld "dev" 18 200 true (serving checkout) true false true.

Definition world_no_themes : world :=
  mkWorld "dev" 18 200 true (serving checkout_no_themes) true true true.

Definition world_flat : world :=
  mkWorld "dev" 18 200 true (serving checkout_flat) true true true.

(** A working directory whose [themes] already holds [twentyseventeen]. *)
Definition old_theme : node :=
  Dir st_root [("style.css", File st_root "old")].

Definition start : state :=
  mkState [("themes", Dir st_root [("twentyseventeen", old_theme)])] [].

(** The same after the fetch step. *)
Definition cloned : state :=
  mkState [("themes", Dir st_root [("twentyseventeen", old_theme)]);
           ("temp-wp", Dir (fresh_dir world_ok) checkout)]
          ["🚀 Cloning WordPress repo..."].

(** An empty working directory; one where a file is called [themes]; one
    where an earlier run left [temp-wp] behind. *)
Definition empty : state := mkState [] [].

Definition themes_is_file : state :=
  mkState [("themes", File st_root "")] [].

Definition stale_temp : state :=
  mkState [("temp-wp", Dir st_git [("readme.html", File st_git "")])] [].

(** A clone made by another user, readable by all, next to a destination
    that belongs to the invoking user [www]. *)
Definition st_dir_dev : stat := mkStat "dev" 493 100.       (* 0o755 *)
Definition st_file_dev : stat := mkStat "dev" 420 100.      (* 0o644 *)
Definition st_dir_www : stat := mkStat "www" 493 1.         (* 0o755 *)

Definition theme_twentytwenty : node :=
  Dir st_dir_dev [("style.css", File st_file_dev "body{}")].

Definition shared_checkout : entries :=
  [("wp-content",
    Dir st_dir_dev
      [("themes",
        Dir st_dir_dev
          [("twentytwenty", theme_twentytwenty);
           ("index.php", File st_file_dev "<?php // Silence")])])].

Definition world_www : world :=
  mkWorld "www" 18 200 true (serving shared_checkout) true true true.

Definition shared_clone : state :=
  mkState [("themes", Dir st_dir_www []);
           ("temp-wp", Dir st_dir_dev shared_checkout)] [].

(** The listing of [wp-content/themes] in [checkout]. *)
Definition checkout_themes : entries :=
  [("twentytwenty", Dir st_git [("style.css", File st_git "body{}")]);
   ("twentyseventeen", Dir st_git [("style.css", File st_git "new")]);
   ("index.php", File st_git "<?php // Silence")].

End Examples.

(* ================================================================= *)
(** ** Observations on trees and runs *)

Module Observe.
Import FS Py Script Model.

(** The tree without its [stat]s: shape, names and file data. *)
Definition blank : stat := mkStat "" 0 0.

Fixpoint forget (n : node) : node :=
  match n with
  | File _ d => File blank d
  | Dir _ cs => Dir blank (map (fun kc => (fst kc, forget (snd kc))) cs)
  end.

(** The notice [copy_themes] prints for a name it skips. *)
Definition notice (y : string) : string := "⚠️ Skipping existing: " ++ y.

(** The destination has an entry of that name. *)
Definition at_destination (cwd : entries) (y : string) : bool :=
  match resolve cwd (THEMES_TARGET / y)%path with
  | Found _ => true
  | _ => false
  end.

(** The status the shell command ends with when [sudo] does not do its
    work. *)
Definition sudo_status (w : world) : Z :=
  if sudo_installed w then 1 else 127.

End Observe.

(* ================================================================= *)
(** ** Facts about listings and paths *)

Module FSFacts.
Import FS.

Section Listings.
Variables (k : string) (n : node).

Lemma assoc_set_same (l : entries) : assoc k (set_assoc k n l) = Some n.
Proof.
  induction l as [|[k' n'] l IH]; simpl.
  - now rewrite String.eqb_refl.
  - destruct (String.eqb k k') eqn:E; simpl.
    + now rewrite String.eqb_refl.
    + now rewrite E.
Qed.

Lemma assoc_set_other (j : string) (l : entries) :
  j <> k -> assoc j (set_assoc k n l) = assoc j l.
Proof.
  intros Hne. apply String.eqb_neq in Hne.
  induction l as [|[k' n'] l IH]; simpl.
  - now rewrite Hne.
  - destruct (String.eqb k k') eqn:E; simpl.
    + apply String.eqb_eq in E; subst k'. now rewrite Hne.
    + now rewrite IH.
Qed.

Lemma assoc_del_same (l : entries) : assoc k (del_assoc k l) = None.
Proof.
  induction l as [|[k' n'] l IH]; simpl; auto.
  destruct (String.eqb k k') eqn:E; simpl; auto.
  now rewrite E.
Qed.

Lemma assoc_del_other (j : string) (l : entries) :
  j <> k -> assoc j (del_assoc k l) = assoc j l.
Proof.
  intros Hne. apply String.eqb_neq in Hne.
  induction l as [|[k' n'] l IH]; simpl; auto.
  destruct (String.eqb k k') eqn:E; simpl.
  - apply String.eqb_eq in E; subst k'. now rewrite Hne.
  - now rewrite IH.
Qed.

Lemma assoc_map_entry_same (f : node -> node) (l : entries) :
  assoc k (map_entry k f l) = option_map f (assoc k l).
Proof.
  induction l as [|[k' n'] l IH]; simpl; auto.
  destruct (String.eqb k k') eqn:E; simpl; now rewrite E.
Qed.

Lemma assoc_map_entry_other (j : string) (f : node -> node) (l : entries) :
  j <> k -> assoc j (map_entry k f l) = assoc j l.
Proof.
  intros Hne. apply String.eqb_neq in Hne.
  induction l as [|[k' n'] l IH]; simpl; auto.
  destruct (String.eqb k k') eqn:E; simpl.
  - apply String.eqb_eq in E; subst k'. now rewrite Hne.
  - now rewrite IH.
Qed.

(** Writing an entry twice keeps the second write. *)
Lemma set_assoc_twice (n' : node) (l : entries) :
  set_assoc k n (set_assoc k n' l) = set_assoc k n l.
Proof.
  induction l as [|[k' m] l IH]; simpl.
  - now rewrite String.eqb_refl.
  - destruct (String.eqb k k') eqn:E; simpl.
    + now rewrite String.eqb_refl.
    + now rewrite E, IH.
Qed.

(** Writing back what is there changes nothing. *)
Lemma set_assoc_id (l : entries) :
  assoc k l = Some n -> set_assoc k n l = l.
Proof.
  induction l as [|[k' m] l IH]; simpl; [discriminate|].
  destruct (String.eqb k k') eqn:E.
  - intros [= ->]. apply String.eqb_eq in E. now subst.
  - intros H. now rewrite IH.
Qed.

(** Rewriting an existing entry is writing its image. *)
Lemma map_entry_set (f : node -> node) (l : entries) :
  assoc k l = Some n -> map_entry k f l = set_assoc k (f n) l.
Proof.
  induction l as [|[k' m] l IH]; simpl; [discriminate|].
  destruct (String.eqb k k') eqn:E.
  - intros [= ->]. apply String.eqb_eq in E. now subst.
  - intros H. now rewrite IH.
Qed.

Lemma map_entry_absent (f : node -> node) (l : entries) :
  assoc k l = None -> map_entry k f l = l.
Proof.
  induction l as [|[k' m] l IH]; simpl; auto.
  destruct (String.eqb k k') eqn:E; [discriminate|].
  intros H. now rewrite IH.
Qed.
End Listings.

(** An entry is listed under its name. *)
Lemma assoc_in_names (k : string) (l : entries) :
  In k (names l) -> assoc k l <> None.
Proof.
  induction l as [|[k' m] l IH]; simpl; [tauto|].
  intros [->|H].
  - now rewrite String.eqb_refl.
  - destruct (String.eqb k k'); [discriminate|auto].
Qed.

Lemma names_of_assoc (k : string) (l : entries) (n : node) :
  assoc k l = Some n -> In k (names l).
Proof.
  induction l as [|[k' m] l IH]; simpl; [discriminate|].
  destruct (String.eqb k k') eqn:E.
  - apply String.eqb_eq in E. auto.
  - auto.
Qed.

(** Resolution of a path looks at the working directory only through the
    entry of the first component. *)
Lemma resolve_head (cwd cwd' : entries) (c : string) (p : path) :
  assoc c cwd = assoc c cwd' -> resolve cwd (c :: p) = resolve cwd' (c :: p).
Proof. simpl. now intros ->. Qed.

Lemma resolve_one (cwd : entries) (c : string) :
  resolve cwd [c] =
  match assoc c cwd with Some n => Found n | None => NoEnt end.
Proof. reflexivity. Qed.

Lemma resolve_two (cwd : entries) (c d : string) :
  resolve cwd [c; d] =
  match assoc c cwd with
  | None => NoEnt
  | Some (File _ _) => NotDir
  | Some (Dir _ cs) => match assoc d cs with Some n => Found n | None => NoEnt end
  end.
Proof. simpl. destruct (assoc c cwd) as [[|]|]; reflexivity. Qed.

Lemma last_joinpath (p : path) (c : string) : last (joinpath p c) "" = c.
Proof. unfold joinpath. apply last_last. Qed.

End FSFacts.

(* ================================================================= *)
(** ** The steps, one by one *)

Module Steps.
Import FS Py Script Model FSFacts.

(** A child of a directory is resolved through the listing of the
    directory. *)
Lemma resolve_child (p : path) :
  forall (cwd : entries) (st : stat) (cs : entries) (c : string),
    resolve cwd p = Found (Dir st cs) ->
    resolve cwd (joinpath p c) =
    match assoc c cs with Some m => Found m | None => NoEnt end.
Proof.
  unfold joinpath.
  induction p as [|a p IH]; intros cwd st cs c H; [discriminate|].
  simpl in H. simpl.
  destruct (assoc a cwd) as [n|]; [|discriminate].
  destruct p as [|b p].
  - injection H as ->. reflexivity.
  - change ((b :: p) ++ [c])%list with (b :: (p ++ [c]))%list.
    destruct n as [|st' cs']; [discriminate|].
    change (b :: (p ++ [c]))%list with ((b :: p) ++ [c])%list.
    eapply IH; eauto.
Qed.

Lemma temp_not_themes : "temp-wp" <> "themes".
Proof. discriminate. Qed.

(** Changing the entry [themes] of the working directory does not change
    what is under [temp-wp]. *)
Lemma source_frame (cwd : entries) (n : node) (p : path) :
  resolve (set_assoc "themes" n cwd) ("temp-wp" :: p) =
  resolve cwd ("temp-wp" :: p).
Proof. apply resolve_head, assoc_set_other, temp_not_themes. Qed.

Lemma copy_item_skip (w : world) (cwd : entries) (out : list string)
    (tst : stat) (T : entries) (y : string) (n : node) :
  assoc "themes" cwd = Some (Dir tst T) ->
  assoc y T = Some n ->
  copy_item (joinpath source_themes y) w (mkState cwd out) =
  (Ok tt, mkState cwd (out ++ ["⚠️ Skipping existing: " ++ y])).
Proof.
  intros Ht Hy.
  unfold copy_item, name. rewrite last_joinpath.
  unfold bind, exists_, bind, get_fs, ret. cbn [fs stdout].
  unfold THEMES_TARGET, joinpath. cbn [app].
  rewrite resolve_two, Ht, Hy. reflexivity.
Qed.

Lemma copy_item_new (w : world) (cwd : entries) (out : list string)
    (tst sst : stat) (T S : entries) (y : string) (m : node) :
  assoc "themes" cwd = Some (Dir tst T) ->
  resolve cwd source_themes = Found (Dir sst S) ->
  assoc y T = None ->
  assoc y S = Some m ->
  copy_item (joinpath source_themes y) w (mkState cwd out) =
  (Ok tt,
   mkState (set_assoc "themes" (Dir tst (set_assoc y (replica w m) T)) cwd) out).
Proof.
  intros Ht Hs Hy Hm.
  pose proof (resolve_child _ _ _ _ y Hs) as Hitem. rewrite Hm in Hitem.
  assert (Hdest : resolve cwd ["themes"; y] = NoEnt)
    by (now rewrite resolve_two, Ht, Hy).
  unfold copy_item, name. rewrite last_joinpath.
  change (joinpath THEMES_TARGET y) with ["themes"; y].
  set (item := joinpath source_themes y) in *.
  unfold bind, exists_, is_dir, bind, get_fs, ret. cbn [fs stdout].
  rewrite Hdest. cbv beta iota. cbn [fs stdout]. rewrite Hitem.
  destruct m as [st d|st cs]; cbn [is_dir_node].
  - unfold copy2, bind, ask, get_fs, put_fs. cbn [fs stdout].
    rewrite Hdest. cbv beta iota. rewrite Hitem, Hdest.
    unfold parent_is_dir. cbn [split_last]. rewrite resolve_one, Ht.
    cbn [is_dir_node]. unfold write. cbn [split_last alter].
    erewrite map_entry_set by eassumption. reflexivity.
  - unfold copytree, bind, ask, get_fs, put_fs. cbn [fs stdout].
    rewrite Hitem, Hdest.
    cbn [makedirs]. rewrite Ht, Hy.
    unfold write. cbn [split_last alter].
    erewrite map_entry_set by apply assoc_set_same.
    rewrite !set_assoc_twice. reflexivity.
Qed.

Lemma copy_loop (w : world) (S : entries) (sst tst : stat) (ys : list string) :
  forall (T cwd : entries) (out : list string),
    assoc "themes" cwd = Some (Dir tst T) ->
    resolve cwd source_themes = Found (Dir sst S) ->
    (forall y, In y ys -> assoc y S <> None) ->
    for_each (map (joinpath source_themes) ys) copy_item w (mkState cwd out) =
    (Ok tt,
     mkState (set_assoc "themes" (Dir tst (copy_into w S ys T)) cwd)
             (out ++ notices w S ys T)).
Proof.
  induction ys as [|y ys IH]; intros T cwd out Ht Hs Hin.
  - cbn. rewrite app_nil_r. now rewrite set_assoc_id.
  - cbn [map for_each copy_into notices]. unfold bind at 1.
    destruct (assoc y T) as [n|] eqn:Hy.
    + erewrite copy_item_skip by eassumption.
      rewrite (IH T); auto.
      * now rewrite <- app_assoc.
      * intros; apply Hin; now right.
    + destruct (assoc y S) as [m|] eqn:Hm.
      2:{ exfalso. apply (Hin y); [now left|assumption]. }
      erewrite copy_item_new by eassumption.
      rewrite (IH (set_assoc y (replica w m) T)).
      * now rewrite set_assoc_twice.
      * apply assoc_set_same.
      * unfold source_themes, TEMP_DIR, joinpath. cbn [app].
        rewrite source_frame. exact Hs.
      * intros; apply Hin; now right.
Qed.

(** What [copy_into] leaves in the destination listing. *)
Lemma copy_into_keeps (w : world) (S : entries) (x : string) (n : node)
    (ys : list string) :
  forall T, assoc x T = Some n -> assoc x (copy_into w S ys T) = Some n.
Proof.
  induction ys as [|y ys IH]; intros T Hx; cbn [copy_into]; auto.
  destruct (assoc y T) eqn:Hy; auto.
  destruct (assoc y S) eqn:Hm; auto.
  apply IH. rewrite assoc_set_other; auto.
  intros ->. congruence.
Qed.

Lemma copy_into_adds (w : world) (S : entries) (x : string) (m : node)
    (ys : list string) :
  (forall y, In y ys -> assoc y S <> None) ->
  forall T,
    assoc x T = None -> In x ys -> assoc x S = Some m ->
    assoc x (copy_into w S ys T) = Some (replica w m).
Proof.
  induction ys as [|y ys IH]; intros Hall T Hx Hin Hm; [contradiction|].
  cbn [copy_into].
  destruct (String.eqb x y) eqn:E.
  - apply String.eqb_eq in E; subst y. rewrite Hx, Hm.
    apply copy_into_keeps, assoc_set_same.
  - apply String.eqb_neq in E.
    destruct Hin as [->|Hin]; [congruence|].
    assert (Hall' : forall z, In z ys -> assoc z S <> None)
      by (intros; apply Hall; now right).
    destruct (assoc y T) eqn:Hy; [now apply IH|].
    destruct (assoc y S) eqn:Hy'.
    + apply IH; auto. now rewrite assoc_set_other.
    + exfalso. apply (Hall y); [now left|assumption].
Qed.

Lemma notices_skip (w : world) (S : entries) (x : string) (n : node)
    (ys : list string) :
  (forall y, In y ys -> assoc y S <> None) ->
  forall T,
    assoc x T = Some n -> In x ys ->
    In ("⚠️ Skipping existing: " ++ x) (notices w S ys T).
Proof.
  induction ys as [|y ys IH]; intros Hall T Hx Hin; [contradiction|].
  cbn [notices].
  assert (Hall' : forall z, In z ys -> assoc z S <> None)
    by (intros; apply Hall; now right).
  destruct Hin as [->|Hin].
  - rewrite Hx. now left.
  - destruct (assoc y T) eqn:Hy.
    + right. now apply IH.
    + destruct (assoc y S) eqn:Hy'.
      * apply IH; auto. rewrite assoc_set_other; auto. congruence.
      * exfalso. apply (Hall y); [now left|assumption].
Qed.

(** [copy_themes] when the source directory is there and no file stands in
    the place of the destination. *)
Lemma copy_themes_ok (w : world) (s : state) (tst sst : stat) (T S : entries) :
  dest_before w (fs s) = Some (tst, T) ->
  resolve (fs s) source_themes = Found (Dir sst S) ->
  copy_themes w s =
  (Ok tt,
   mkState
     (set_assoc "themes" (Dir tst (copy_into w S (names S) T)) (fs s))
     (stdout s ++ "📂 Copying themes to ./themes..."
             :: notices w S (names S) T)).
Proof.
  intros Hd Hs. destruct s as [cwd out]. cbn [fs stdout] in *.
  assert (Hmk : makedirs (fresh_dir w) THEMES_TARGET cwd =
                inr (set_assoc "themes" (Dir tst T) cwd)).
  { unfold dest_before in Hd. cbn [makedirs THEMES_TARGET].
    destruct (assoc "themes" cwd) as [[|st T']|] eqn:Ht; try discriminate.
    - injection Hd as -> ->. now rewrite set_assoc_id.
    - now injection Hd as <- <-. }
  unfold copy_themes.
  unfold bind at 1. unfold mkdir_parents_exist_ok, bind, ask, get_fs.
  cbn [fs stdout]. rewrite Hmk. unfold put_fs, print. cbn [fs stdout].
  unfold iterdir, bind, get_fs. cbn [fs stdout].
  fold source_themes.
  assert (Hs' : resolve (set_assoc "themes" (Dir tst T) cwd) source_themes
                = Found (Dir sst S)).
  { unfold source_themes, TEMP_DIR, joinpath in *. cbn [app] in *.
    now rewrite source_frame. }
  rewrite Hs'. unfold ret.
  change (for_each ?l _) with (for_each l copy_item).
  erewrite copy_loop; eauto using assoc_set_same.
  - rewrite set_assoc_twice. now rewrite <- app_assoc.
  - intros y. apply assoc_in_names.
Qed.

(** [copy_themes] when a file stands in the place of the destination. *)
Lemma copy_themes_dest_file (w : world) (s : state) (st : stat) (d : string) :
  assoc "themes" (fs s) = Some (File st d) ->
  copy_themes w s = (Raise (FileExistsError "themes"), s).
Proof.
  intros Ht. destruct s as [cwd out]. cbn [fs] in Ht.
  unfold copy_themes.
  unfold bind at 1. unfold mkdir_parents_exist_ok, bind, ask, get_fs.
  cbn [fs stdout makedirs THEMES_TARGET]. now rewrite Ht.
Qed.

(** [copy_themes] when the source directory cannot be listed. *)
Lemma copy_themes_no_source (w : world) (s : state) (tst : stat) (T : entries)
    (e : errno) :
  dest_before w (fs s) = Some (tst, T) ->
  listing_error (resolve (fs s) source_themes) = Some e ->
  copy_themes w s =
  (Raise (OSError e "temp-wp/wp-content/themes"),
   mkState (set_assoc "themes" (Dir tst T) (fs s))
           (stdout s ++ ["📂 Copying themes to ./themes..."])).
Proof.
  intros Hd Hs. destruct s as [cwd out]. cbn [fs stdout] in *.
  assert (Hmk : makedirs (fresh_dir w) THEMES_TARGET cwd =
                inr (set_assoc "themes" (Dir tst T) cwd)).
  { unfold dest_before in Hd. cbn [makedirs THEMES_TARGET].
    destruct (assoc "themes" cwd) as [[|st T']|] eqn:Ht; try discriminate.
    - injection Hd as -> ->. now rewrite set_assoc_id.
    - now injection Hd as <- <-. }
  unfold copy_themes.
  unfold bind at 1. unfold mkdir_parents_exist_ok, bind, ask, get_fs.
  cbn [fs stdout]. rewrite Hmk. unfold put_fs, print. cbn [fs stdout].
  unfold iterdir, bind, get_fs. cbn [fs stdout].
  fold source_themes.
  assert (Hs' : resolve (set_assoc "themes" (Dir tst T) cwd) source_themes
                = resolve cwd source_themes).
  { unfold source_themes, TEMP_DIR, joinpath in *. cbn [app] in *.
    now rewrite source_frame. }
  rewrite Hs'.
  destruct (resolve cwd source_themes) as [[|]| |]; cbn in Hs;
    try discriminate; injection Hs as <-; reflexivity.
Qed.

(** *** Fetch *)


Lemma clone_no_git (w : world) (s : state) :
  git_installed w = false ->
  clone_wordpress_repo w s =
  (Raise (FileNotFoundError "git"),
   mkState (fs s) (stdout s ++ ["🚀 Cloning WordPress repo..."])).
Proof.
  intros Hg. unfold clone_wordpress_repo, bind, print, subprocess_run.
  unfold run_check, bind, ask, which. cbn [String.eqb Ascii.eqb Bool.eqb].
  now rewrite Hg.
Qed.

Lemma clone_with_git (w : world) (s : state) :
  git_installed w = true ->
  clone_wordpress_repo w s =
  (if fst (git w (tl clone_argv) (fs s)) =? 0 then Ok tt
   else Raise (CalledProcessError (fst (git w (tl clone_argv) (fs s)))
                                  (repr_list clone_argv)),
   mkState (snd (git w (tl clone_argv) (fs s)))
           (stdout s ++ ["🚀 Cloning WordPress repo..."])).
Proof.
  intros Hg. unfold clone_wordpress_repo, bind, print, subprocess_run.
  unfold run_check, bind, ask, which. cbn [String.eqb Ascii.eqb Bool.eqb].
  rewrite Hg. unfold get_fs, put_fs. cbn [fs stdout].
  change (str_path TEMP_DIR) with "temp-wp".
  change ["clone"; "--depth=1"; WP_REPO; "temp-wp"] with (tl clone_argv).
  destruct (git w (tl clone_argv) (fs s)) as [status cwd'].
  cbn [fst snd stdout]. now destruct (status =? 0).
Qed.

(** A failing [git] leaves the working directory as it found it. *)
Lemma git_failure_frame (w : world) (args : list string) (cwd : entries) :
  fst (git w args cwd) <> 0 -> snd (git w args cwd) = cwd.
Proof.
  unfold git.
  repeat match goal with
         | |- context [match ?x with _ => _ end] => destruct x
         end; cbn [fst snd]; congruence.
Qed.

(** What a successful clone leaves: the checkout under [temp-wp], the rest
    of the working directory as it was. *)
Lemma git_clone_success (w : world) (cwd : entries) :
  fst (git w (tl clone_argv) cwd) = 0 ->
  exists st tree,
    remote w WP_REPO = Some tree /\
    snd (git w (tl clone_argv) cwd) = set_assoc "temp-wp" (Dir st tree) cwd.
Proof.
  unfold git, clone_argv, tl.
  destruct (assoc "temp-wp" cwd) as [[|st [|]]|];
    destruct (remote w WP_REPO); cbn [fst snd]; try discriminate; eauto.
Qed.

Lemma clone_raise (w : world) (s s1 : state) (e : exn) :
  clone_wordpress_repo w s = (Raise e, s1) ->
  s1 = mkState (fs s) (stdout s ++ ["🚀 Cloning WordPress repo..."]) /\
  (is_CalledProcessError e = true \/ e = FileNotFoundError "git").
Proof.
  destruct (git_installed w) eqn:Hg.
  - rewrite clone_with_git by assumption.
    destruct (fst (git w (tl clone_argv) (fs s)) =? 0) eqn:E; [discriminate|].
    apply Z.eqb_neq in E. rewrite git_failure_frame by assumption.
    intros [= <- <-]. auto.
  - rewrite clone_no_git by assumption. intros [= <- <-]. auto.
Qed.

Lemma clone_ok (w : world) (s s1 : state) :
  clone_wordpress_repo w s = (Ok tt, s1) ->
  exists st tree,
    remote w WP_REPO = Some tree /\
    s1 = mkState (set_assoc "temp-wp" (Dir st tree) (fs s))
                 (stdout s ++ ["🚀 Cloning WordPress repo..."]).
Proof.
  destruct (git_installed w) eqn:Hg.
  - rewrite clone_with_git by assumption.
    destruct (fst (git w (tl clone_argv) (fs s)) =? 0) eqn:E; [|discriminate].
    apply Z.eqb_eq in E. destruct (git_clone_success _ _ E) as (st & tree & Hr & Hc).
    rewrite Hc. intros [= <-]. eauto.
  - rewrite clone_no_git by assumption. discriminate.
Qed.

(** *** Cleanup *)

Lemma clean_temp_eq (w : world) (s : state) :
  clean_temp w s =
  let out := (stdout s ++ ["🧹 Removing temp folder..."])%list in
  match assoc "temp-wp" (fs s) with
  | Some (Dir _ _) => (Ok tt, mkState (del_assoc "temp-wp" (fs s)) out)
  | Some (File _ _) => (Raise (NotADirectoryError "temp-wp"), mkState (fs s) out)
  | None => (Raise (FileNotFoundError "temp-wp"), mkState (fs s) out)
  end.
Proof.
  unfold clean_temp, bind, print, rmtree, bind, get_fs. cbn [fs stdout].
  unfold TEMP_DIR. rewrite resolve_one.
  destruct (assoc "temp-wp" (fs s)) as [[|]|]; reflexivity.
Qed.

Lemma clean_temp_ok (w : world) (s s1 : state) :
  clean_temp w s = (Ok tt, s1) ->
  s1 = mkState (del_assoc "temp-wp" (fs s))
               (stdout s ++ ["🧹 Removing temp folder..."]).
Proof.
  rewrite clean_temp_eq.
  destruct (assoc "temp-wp" (fs s)) as [[|]|]; cbv zeta; congruence.
Qed.

Lemma clean_temp_raise (w : world) (s s1 : state) (e : exn) :
  clean_temp w s = (Raise e, s1) ->
  s1 = mkState (fs s) (stdout s ++ ["🧹 Removing temp folder..."]).
Proof.
  rewrite clean_temp_eq.
  destruct (assoc "temp-wp" (fs s)) as [[|]|]; cbv zeta; congruence.
Qed.

(** *** Permission fix *)

Lemma fix_no_zsh (w : world) (s : state) :
  zsh_installed w = false ->
  fix_theme_permissions w s =
  (Raise (FileNotFoundError "/bin/zsh"),
   mkState (fs s)
     (stdout s ++ ["🔧 Fixing ownership and permissions on ./themes ..."])).
Proof.
  intros Hz. unfold fix_theme_permissions, bind, print, subprocess_run_shell.
  unfold run_check, bind, ask, which. cbn [String.eqb Ascii.eqb Bool.eqb].
  now rewrite Hz.
Qed.

Lemma fix_with_zsh (w : world) (s : state) :
  zsh_installed w = true ->
  fix_theme_permissions w s =
  let out :=
    (stdout s ++ ["🔧 Fixing ownership and permissions on ./themes ..."])%list
  in
  if fst (sh_fix w (fs s)) =? 0
  then (Ok tt, mkState (snd (sh_fix w (fs s))) (out ++ ["✅ Permissions fixed."]))
  else (Raise (CalledProcessError (fst (sh_fix w (fs s))) fix_command),
        mkState (snd (sh_fix w (fs s))) out).
Proof.
  intros Hz. unfold fix_theme_permissions, bind, print, subprocess_run_shell.
  unfold run_check, bind, ask, which. cbn [String.eqb Ascii.eqb Bool.eqb].
  rewrite Hz. unfold get_fs, put_fs. cbn [fs stdout].
  unfold zsh. fold fix_command. rewrite String.eqb_refl.
  destruct (sh_fix w (fs s)) as [status cwd'].
  cbn [fst snd stdout]. now destruct (status =? 0).
Qed.

(** A failing shell command leaves the working directory as it found it. *)
Lemma sh_fix_failure_frame (w : world) (cwd : entries) :
  fst (sh_fix w cwd) <> 0 -> snd (sh_fix w cwd) = cwd.
Proof.
  unfold sh_fix.
  destruct (sudo_installed w), (sudo_granted w), (assoc "themes" cwd);
    cbn [negb fst snd]; congruence.
Qed.

(** The shell command touches nothing but [themes]. *)
Lemma sh_fix_frame (w : world) (cwd : entries) (c : string) :
  c <> "themes" -> assoc c (snd (sh_fix w cwd)) = assoc c cwd.
Proof.
  intros Hc. unfold sh_fix.
  destruct (sudo_installed w), (sudo_granted w), (assoc "themes" cwd);
    cbn [negb fst snd]; auto.
  unfold update. cbn [split_last alter].
  now rewrite !assoc_map_entry_other.
Qed.

Lemma fix_raise (w : world) (s s1 : state) (e : exn) :
  fix_theme_permissions w s = (Raise e, s1) ->
  s1 = mkState (fs s)
         (stdout s ++ ["🔧 Fixing ownership and permissions on ./themes ..."]) /\
  (is_CalledProcessError e = true \/ e = FileNotFoundError "/bin/zsh").
Proof.
  destruct (zsh_installed w) eqn:Hz.
  - rewrite fix_with_zsh by assumption. cbv zeta.
    destruct (fst (sh_fix w (fs s)) =? 0) eqn:E; [discriminate|].
    apply Z.eqb_neq in E. rewrite sh_fix_failure_frame by assumption.
    intros [= <- <-]. auto.
  - rewrite fix_no_zsh by assumption. intros [= <- <-]. auto.
Qed.

Lemma fix_ok (w : world) (s s1 : state) :
  fix_theme_permissions w s = (Ok tt, s1) ->
  forall c, c <> "themes" -> assoc c (fs s1) = assoc c (fs s).
Proof.
  destruct (zsh_installed w) eqn:Hz.
  - rewrite fix_with_zsh by assumption. cbv zeta.
    destruct (fst (sh_fix w (fs s)) =? 0); [|discriminate].
    intros [= <-] c Hc. cbn [fs]. now apply sh_fix_frame.
  - rewrite fix_no_zsh by assumption. discriminate.
Qed.

(** Induction on trees: a property of every child gives the property of
    the directory. *)
Lemma node_induction (P : node -> Prop) :
  (forall st d, P (File st d)) ->
  (forall st cs, Forall (fun kc => P (snd kc)) cs -> P (Dir st cs)) ->
  forall n, P n.
Proof.
  intros HF HD. fix IH 1. intros [st d|st cs].
  - apply HF.
  - apply HD. induction cs as [|[k c] cs IHcs]; constructor.
    + apply IH.
    + apply IHcs.
Qed.

Lemma same_meta_copystat (st st' : stat) :
  same_meta st (copystat st st') = true.
Proof. unfold same_meta, copystat. cbn. now rewrite !Z.eqb_refl. Qed.

(** A replica is identical in contents to its source. *)
Lemma identical_replica (w : world) (n : node) :
  identical n (replica w n) = true.
Proof.
  induction n as [st d|st cs IH] using node_induction; cbn [identical replica].
  - now rewrite same_meta_copystat, String.eqb_refl.
  - rewrite same_meta_copystat. cbn [andb].
    induction IH as [|[k c] cs Hc _ IHcs]; cbn [map fst snd]; auto.
    cbn [snd] in Hc. now rewrite String.eqb_refl, Hc, IHcs.
Qed.

(** A replica belongs to the user who made it. *)
Lemma owned_by_replica (w : world) (n : node) :
  owned_by (user w) (replica w n) = true.
Proof.
  induction n as [st d|st cs IH] using node_induction; cbn [owned_by replica].
  - cbn. apply String.eqb_refl.
  - cbn [copystat st_owner fresh_dir]. rewrite String.eqb_refl. cbn [andb].
    induction IH as [|[k c] cs Hc _ IHcs]; cbn [map forallb fst snd]; auto.
    cbn [snd] in Hc. now rewrite Hc, IHcs.
Qed.

(** A path with a resolved child resolves to a directory listing it. *)
Lemma resolve_child_inv (p : path) :
  forall (cwd : entries) (c : string) (m : node),
    p <> [] ->
    resolve cwd (joinpath p c) = Found m ->
    exists st cs, resolve cwd p = Found (Dir st cs) /\ assoc c cs = Some m.
Proof.
  unfold joinpath.
  induction p as [|a p IH]; intros cwd c m Hp H; [congruence|].
  destruct p as [|b p].
  - cbn in H. cbn [resolve].
    destruct (assoc a cwd) as [[|st cs]|]; try discriminate.
    exists st, cs. split; [reflexivity|].
    destruct (assoc c cs); congruence.
  - change ((a :: b :: p) ++ [c])%list with (a :: ((b :: p) ++ [c]))%list in H.
    cbn [resolve] in H. cbn [resolve].
    destruct (assoc a cwd) as [n|]; [|discriminate].
    change ((b :: p) ++ [c])%list with (b :: (p ++ [c]))%list in H.
    destruct n as [|st cs]; [discriminate|].
    apply IH; [discriminate|exact H].
Qed.

(** A child cannot be found where the parent does not exist. *)
Lemma resolve_child_noent (p : path) :
  forall (cwd : entries) (c : string),
    p <> [] ->
    resolve cwd (joinpath p c) = NoEnt ->
    resolve cwd p = NoEnt \/
    exists st cs, resolve cwd p = Found (Dir st cs) /\ assoc c cs = None.
Proof.
  unfold joinpath.
  induction p as [|a p IH]; intros cwd c Hp H; [congruence|].
  destruct p as [|b p].
  - cbn in H. cbn [resolve].
    destruct (assoc a cwd) as [[|st cs]|]; try discriminate; auto.
    right. exists st, cs. split; [reflexivity|].
    destruct (assoc c cs); congruence.
  - change ((a :: b :: p) ++ [c])%list with (a :: ((b :: p) ++ [c]))%list in H.
    cbn [resolve] in H. cbn [resolve].
    destruct (assoc a cwd) as [n|]; [|auto].
    change ((b :: p) ++ [c])%list with (b :: (p ++ [c]))%list in H.
    destruct n as [|st cs]; [discriminate|].
    apply IH; [discriminate|exact H].
Qed.

(** *** [Path.mkdir(parents=True, exist_ok=True)] on any path *)



(** *** Sequencing *)

Lemma bind_ok {A B} (c : M A) (f : A -> M B) (w : world) (s s1 : state) (a : A) :
  c w s = (Ok a, s1) -> bind c f w s = f a w s1.
Proof. unfold bind. now intros ->. Qed.

Lemma bind_raise {A B} (c : M A) (f : A -> M B) (w : world) (s s1 : state)
    (e : exn) :
  c w s = (Raise e, s1) -> bind c f w s = (Raise e, s1).
Proof. unfold bind. now intros ->. Qed.

Lemma bind_ok_inv {A B} (c : M A) (f : A -> M B) (w : world) (s s' : state)
    (b : B) :
  bind c f w s = (Ok b, s') ->
  exists a s1, c w s = (Ok a, s1) /\ f a w s1 = (Ok b, s').
Proof.
  unfold bind. destruct (c w s) as [[a|e] s1]; [eauto|discriminate].
Qed.

(** Every outcome of [copy_themes]. *)
Lemma copy_themes_cases (w : world) (s : state) :
  (exists st d,
      assoc "themes" (fs s) = Some (File st d) /\
      copy_themes w s = (Raise (FileExistsError "themes"), s)) \/
  (exists tst T,
      dest_before w (fs s) = Some (tst, T) /\
      ((exists sst S,
           resolve (fs s) source_themes = Found (Dir sst S) /\
           copy_themes w s =
           (Ok tt,
            mkState
              (set_assoc "themes" (Dir tst (copy_into w S (names S) T)) (fs s))
              (stdout s ++ "📂 Copying themes to ./themes..."
                      :: notices w S (names S) T))) \/
       (exists e,
           listing_error (resolve (fs s) source_themes) = Some e /\
           copy_themes w s =
           (Raise (OSError e "temp-wp/wp-content/themes"),
            mkState (set_assoc "themes" (Dir tst T) (fs s))
                    (stdout s ++ ["📂 Copying themes to ./themes..."]))))).
Proof.
  destruct (dest_before w (fs s)) as [[tst T]|] eqn:Hd.
  - right. exists tst, T. split; [reflexivity|].
    destruct (listing_error (resolve (fs s) source_themes)) as [e|] eqn:He.
    + right. exists e. split; [reflexivity|].
      now apply copy_themes_no_source.
    + left. destruct (resolve (fs s) source_themes) as [[|sst S]| |] eqn:Hs;
        try discriminate.
      exists sst, S. split; [reflexivity|].
      now apply (copy_themes_ok w s tst sst T S).
  - left. unfold dest_before in Hd.
    destruct (assoc "themes" (fs s)) as [[st d|]|] eqn:Ht; try discriminate.
    exists st, d. split; [reflexivity|]. now apply (copy_themes_dest_file w s st d).
Qed.

(** The steps raise nothing but [CalledProcessError] and [OSError]. *)
Lemma clone_raises_exception (w : world) (s s1 : state) (e : exn) :
  clone_wordpress_repo w s = (Raise e, s1) -> is_Exception e = true.
Proof.
  intros H. destruct (clone_raise _ _ _ _ H) as [_ [He| ->]]; [|reflexivity].
  now destruct e.
Qed.

Lemma copy_raises_exception (w : world) (s s1 : state) (e : exn) :
  copy_themes w s = (Raise e, s1) -> is_Exception e = true.
Proof.
  intros H.
  destruct (copy_themes_cases w s)
    as [(st & d & _ & E)|(tst & T & _ & [(sst & S & _ & E)|(en & _ & E)])];
    rewrite E in H; try discriminate; now injection H as <- _.
Qed.

Lemma clean_raises_exception (w : world) (s s1 : state) (e : exn) :
  clean_temp w s = (Raise e, s1) -> is_Exception e = true.
Proof.
  rewrite clean_temp_eq.
  destruct (assoc "temp-wp" (fs s)) as [[|]|]; cbv zeta;
    intros [= <- _]; reflexivity.
Qed.

Lemma fix_raises_exception (w : world) (s s1 : state) (e : exn) :
  fix_theme_permissions w s = (Raise e, s1) -> is_Exception e = true.
Proof.
  intros H. destruct (fix_raise _ _ _ _ H) as [_ [He| ->]]; [|reflexivity].
  now destruct e.
Qed.

(** *** The body and its handler *)

(** The body stops at the first step that raises, in the state that step
    left. *)
Lemma body_stops (w : world) (s s' : state) (e : exn) :
  body w s = (Raise e, s') ->
  clone_wordpress_repo w s = (Raise e, s') \/
  (exists s1,
      clone_wordpress_repo w s = (Ok tt, s1) /\
      (copy_themes w s1 = (Raise e, s') \/
       exists s2,
         copy_themes w s1 = (Ok tt, s2) /\
         (clean_temp w s2 = (Raise e, s') \/
          exists s3,
            clean_temp w s2 = (Ok tt, s3) /\
            fix_theme_permissions w s3 = (Raise e, s')))).
Proof.
  unfold body. intros H.
  destruct (clone_wordpress_repo w s) as [[[]|e1] s1] eqn:E1.
  2:{ rewrite (bind_raise _ _ _ _ _ _ E1) in H. auto. }
  rewrite (bind_ok _ _ _ _ _ _ E1) in H. right. exists s1. split; [reflexivity|].
  destruct (copy_themes w s1) as [[[]|e2] s2] eqn:E2.
  2:{ rewrite (bind_raise _ _ _ _ _ _ E2) in H. auto. }
  rewrite (bind_ok _ _ _ _ _ _ E2) in H. right. exists s2. split; [reflexivity|].
  destruct (clean_temp w s2) as [[[]|e3] s3] eqn:E3.
  2:{ rewrite (bind_raise _ _ _ _ _ _ E3) in H. auto. }
  rewrite (bind_ok _ _ _ _ _ _ E3) in H. right. exists s3. split; [reflexivity|].
  destruct (fix_theme_permissions w s3) as [[[]|e4] s4] eqn:E4.
  2:{ rewrite (bind_raise _ _ _ _ _ _ E4) in H. auto. }
  rewrite (bind_ok _ _ _ _ _ _ E4) in H. discriminate.
Qed.

Lemma body_raises_exception (w : world) (s s' : state) (e : exn) :
  body w s = (Raise e, s') -> is_Exception e = true.
Proof.
  intros H.
  destruct (body_stops _ _ _ _ H)
    as [E|(s1 & _ & [E|(s2 & _ & [E|(s3 & _ & E)])])];
    eauto using clone_raises_exception, copy_raises_exception,
      clean_raises_exception, fix_raises_exception.
Qed.

(** [main] after a body that raised. *)
Lemma main_after_raise (w : world) (s s' : state) (e : exn) :
  body w s = (Raise e, s') ->
  is_Exception e = true ->
  main w s = (Ok tt, reported e s').
Proof.
  intros Hb He. unfold main, try_except. rewrite Hb.
  cbn [select_handler]. unfold reported, report_line.
  destruct e as [rc cmd|[] f|]; try discriminate; reflexivity.
Qed.

Lemma main_after_success (w : world) (s s' : state) :
  body w s = (Ok tt, s') -> main w s = (Ok tt, s').
Proof. intros Hb. unfold main, try_except. now rewrite Hb. Qed.

(** [main] always returns. *)
Lemma main_returns (w : world) (s : state) :
  exists s', main w s = (Ok tt, s').
Proof.
  destruct (body w s) as [[[]|e] s'] eqn:Hb.
  - eauto using main_after_success.
  - eauto using main_after_raise, body_raises_exception.
Qed.

(** *** Message prefixes *)

Lemma prefix_app (a b : string) : String.prefix a (a ++ b) = true.
Proof.
  induction a as [|c a IH]; cbn.
  - now destruct b.
  - destruct (Ascii.ascii_dec c c); [exact IH|congruence].
Qed.

(** The prefixes the report of an exception starts with: exactly the one
    of its category. *)
Lemma report_line_prefixes (e : exn) :
  is_Exception e = true ->
  String.prefix command_failed (report_line e) = is_CalledProcessError e /\
  String.prefix missing_tool (report_line e) = is_FileNotFoundError e /\
  String.prefix unexpected_error (report_line e) =
    negb (is_CalledProcessError e || is_FileNotFoundError e).
Proof.
  destruct e as [rc cmd|[] f|]; intros He; try discriminate;
    cbn [report_line is_CalledProcessError is_FileNotFoundError orb negb];
    repeat split;
    try apply prefix_app; reflexivity.
Qed.

(** *** What the steps print *)

Lemma in_notices (w : world) (S : entries) (l : string) (ys : list string) :
  forall T, In l (notices w S ys T) ->
            exists y, l = "⚠️ Skipping existing: " ++ y.
Proof.
  induction ys as [|y ys IH]; intros T H; cbn [notices] in H; [contradiction|].
  destruct (assoc y T).
  - destruct H as [<-|H]; eauto.
  - destruct (assoc y S); [eauto|contradiction].
Qed.

(** The lines a step adds to the output do not include the banner of any
    other step. *)
Lemma clone_prints (w : world) (s s1 : state) (r : result unit) :
  clone_wordpress_repo w s = (r, s1) ->
  stdout s1 = (stdout s ++ [banner Fetch])%list.
Proof.
  destruct r as [[]|e]; intros H.
  - destruct (clone_ok _ _ _ H) as (st & tree & _ & ->). reflexivity.
  - destruct (clone_raise _ _ _ _ H) as [-> _]. reflexivity.
Qed.

Lemma copy_prints (w : world) (s s1 : state) (r : result unit) :
  copy_themes w s = (r, s1) ->
  exists printed,
    stdout s1 = (stdout s ++ printed)%list /\
    forall l, In l printed ->
              l = banner Copy \/ exists y, l = "⚠️ Skipping existing: " ++ y.
Proof.
  intros H.
  destruct (copy_themes_cases w s)
    as [(st & d & _ & E)|(tst & T & _ & [(sst & S & _ & E)|(en & _ & E)])];
    rewrite E in H; injection H as <- <-; cbn [stdout].
  - exists []. split; [now rewrite app_nil_r|contradiction].
  - eexists. split; [reflexivity|].
    intros l [<-|Hl]; [now left|right]. eauto using in_notices.
  - eexists. split; [reflexivity|].
    intros l [<-|[]]. now left.
Qed.

Lemma clean_prints (w : world) (s s1 : state) (r : result unit) :
  clean_temp w s = (r, s1) ->
  stdout s1 = (stdout s ++ [banner Cleanup])%list.
Proof.
  rewrite clean_temp_eq.
  destruct (assoc "temp-wp" (fs s)) as [[|]|]; cbv zeta;
    intros [= <- <-]; reflexivity.
Qed.

Lemma report_line_not_banner (e : exn) (j : step) :
  report_line e <> banner j.
Proof. destruct e as [rc cmd|[] f|], j; discriminate. Qed.

Lemma notice_not_banner (y : string) (j : step) :
  "⚠️ Skipping existing: " ++ y <> banner j.
Proof. destruct j; discriminate. Qed.

End Steps.

(* ================================================================= *)
(** ** Properties of the script *)

Module Properties.
Import FS Py Script Model Observe Examples FSFacts Steps.

(** C1. Skip semantics: when the destination directory has an entry [X]
    and the source themes directory has an entry of the same name, the copy
    step succeeds, prints the skip notice for [X], and the destination still
    resolves [X] to the very same node (same type, same contents, same
    metadata): the entry is neither merged nor overwritten. *)
Theorem copy_themes_skips_existing (w : world) (s : state) (X : string)
    (n m : node) :
  resolve (fs s) (THEMES_TARGET / X)%path = Found n ->
  resolve (fs s) (source_themes / X)%path = Found m ->
  exists s',
    copy_themes w s = (Ok tt, s') /\
    resolve (fs s') (THEMES_TARGET / X)%path = Found n /\
    In ("⚠️ Skipping existing: " ++ X) (stdout s').
Proof.
  intros Hn Hm.
  apply resolve_child_inv in Hn as (tst & T & Ht & HX); [|discriminate].
  apply resolve_child_inv in Hm as (sst & S & Hs & HS); [|discriminate].
  unfold THEMES_TARGET in Ht. rewrite resolve_one in Ht.
  destruct (assoc "themes" (fs s)) as [d|] eqn:Hd; [|discriminate].
  injection Ht as ->.
  assert (Hb : dest_before w (fs s) = Some (tst, T))
    by (unfold dest_before; now rewrite Hd).
  eexists. split; [apply (copy_themes_ok w s tst sst T S Hb Hs)|].
  cbn [fs stdout]. split.
  - change (THEMES_TARGET / X)%path with ["themes"; X].
    rewrite resolve_two, assoc_set_same.
    now rewrite (copy_into_keeps w S X n).
  - apply in_or_app. right. right.
    apply (notices_skip w S X n); auto.
    + intros y. apply assoc_in_names.
    + eapply names_of_assoc; eauto.
Qed.

Lemma copy_themes_skips_existing_witness :
  resolve (fs cloned) (THEMES_TARGET / "twentyseventeen")%path
    = Found old_theme /\
  resolve (fs cloned) (source_themes / "twentyseventeen")%path
    = Found (Dir st_git [("style.css", File st_git "new")]) /\
  exists s',
    copy_themes world_ok cloned = (Ok tt, s') /\
    resolve (fs s') (THEMES_TARGET / "twentyseventeen")%path
      = Found old_theme /\
    In ("⚠️ Skipping existing: " ++ "twentyseventeen") (stdout s').
Proof.
  split; [reflexivity|]. split; [reflexivity|].
  apply (copy_themes_skips_existing world_ok cloned "twentyseventeen"
           old_theme (Dir st_git [("style.css", File st_git "new")]));
    reflexivity.
Defined.

(** C2. When the copy step returns, every entry [Y] of the source themes
    directory that had no namesake at the destination is at the destination
    as a replica of the source entry: a node of the same type with,
    recursively, the same names, the same file data and the same permission
    bits and modification times ([identical]), owned by the invoking
    user. *)
Theorem copy_themes_copies_missing (w : world) (s s' : state) (Y : string)
    (m : node) :
  copy_themes w s = (Ok tt, s') ->
  resolve (fs s) (source_themes / Y)%path = Found m ->
  resolve (fs s) (THEMES_TARGET / Y)%path = NoEnt ->
  exists n',
    resolve (fs s') (THEMES_TARGET / Y)%path = Found n' /\
    n' = replica w m /\
    identical m n' = true /\
    owned_by (user w) n' = true.
Proof.
  intros H Hm Hn.
  apply resolve_child_inv in Hm as (sst & S & Hs & HS); [|discriminate].
  assert (Hb : exists tst T,
             dest_before w (fs s) = Some (tst, T) /\ assoc Y T = None).
  { apply resolve_child_noent in Hn; [|discriminate].
    unfold THEMES_TARGET in Hn. rewrite resolve_one in Hn.
    unfold dest_before.
    destruct (assoc "themes" (fs s)) as [d|].
    - destruct Hn as [Hn|(tst & T & [= ->] & HT)]; [discriminate|eauto].
    - eauto. }
  destruct Hb as (tst & T & Hb & HT).
  rewrite (copy_themes_ok w s tst sst T S Hb Hs) in H.
  injection H as <-. cbn [fs].
  exists (replica w m).
  split; [|auto using identical_replica, owned_by_replica].
  change (THEMES_TARGET / Y)%path with ["themes"; Y].
  rewrite resolve_two, assoc_set_same.
  rewrite (copy_into_adds w S Y m); auto.
  - intros y. apply assoc_in_names.
  - eapply names_of_assoc; eauto.
Qed.

Lemma copy_themes_copies_missing_witness :
  copy_themes world_www shared_clone
    = (Ok tt, snd (copy_themes world_www shared_clone)) /\
  resolve (fs shared_clone) (source_themes / "twentytwenty")%path
    = Found theme_twentytwenty /\
  resolve (fs shared_clone) (THEMES_TARGET / "twentytwenty")%path = NoEnt /\
  (exists n',
      resolve (fs (snd (copy_themes world_www shared_clone)))
        (THEMES_TARGET / "twentytwenty")%path = Found n' /\
      n' = replica world_www theme_twentytwenty /\
      identical theme_twentytwenty n' = true /\
      owned_by (user world_www) n' = true) /\
  replica world_www theme_twentytwenty =
    Dir (mkStat "www" 493 100)
        [("style.css", File (mkStat "www" 420 100) "body{}")] /\
  replica world_www theme_twentytwenty <> theme_twentytwenty.
Proof.
  split; [reflexivity|]. split; [reflexivity|]. split; [reflexivity|].
  split; [|split; [reflexivity|discriminate]].
  apply (copy_themes_copies_missing world_www shared_clone _ "twentytwenty");
    reflexivity.
Defined.

(** C3. After a successful full run (the four steps and the final message
    go through without an exception) the program exits with status 0 and
    the temporary clone directory [temp-wp] does not exist. *)
Theorem temp_dir_gone_after_success (w : world) (s s' : state) :
  body w s = (Ok tt, s') ->
  run w s = (0, s') /\ resolve (fs s') TEMP_DIR = NoEnt.
Proof.
  intros Hb. split.
  - unfold run. now rewrite (main_after_success _ _ _ Hb).
  - unfold body in Hb.
    apply bind_ok_inv in Hb as ([] & s1 & _ & Hb).
    apply bind_ok_inv in Hb as ([] & s2 & _ & Hb).
    apply bind_ok_inv in Hb as ([] & s3 & H3 & Hb).
    apply bind_ok_inv in Hb as ([] & s4 & H4 & Hb).
    apply clean_temp_ok in H3.
    pose proof (fix_ok _ _ _ H4 "temp-wp" temp_not_themes) as H.
    injection Hb as <-. cbn [fs]. unfold TEMP_DIR.
    rewrite resolve_one, H, H3. cbn [fs]. now rewrite assoc_del_same.
Qed.

Lemma temp_dir_gone_after_success_witness :
  body world_ok start = (Ok tt, snd (body world_ok start)) /\
  run world_ok start = (0, snd (body world_ok start)) /\
  resolve (fs (snd (body world_ok start))) TEMP_DIR = NoEnt.
Proof.
  split; [reflexivity|].
  apply (temp_dir_gone_after_success world_ok start). reflexivity.
Defined.

(** The clause [except Exception] does not take an exception outside
    [Exception]: with the three clauses of [main], whatever their
    handlers, a [KeyboardInterrupt] propagates. *)
Lemma interrupt_passes_the_clauses (h1 h2 h3 : exn -> M unit) :
  select_handler
    [(is_CalledProcessError, h1); (is_FileNotFoundError, h2);
     (is_Exception, h3)] KeyboardInterrupt
  = raise KeyboardInterrupt.
Proof. reflexivity. Qed.

(** C4. Every exception of class [Exception] that the body raises is
    caught at the top level: [main] returns, nothing propagates, and the
    exit status is 0. The run ends in the state the body left with exactly
    one more line printed, and that line starts with exactly one of the
    three prefixes: the command-failure prefix for a [CalledProcessError],
    the missing-tool prefix for a [FileNotFoundError], the
    unexpected-error prefix for anything else. *)
Theorem main_catches_every_exception (w : world) (s s1 : state) (e : exn) :
  body w s = (Raise e, s1) ->
  is_Exception e = true ->
  exists line,
    main w s = (Ok tt, mkState (fs s1) (stdout s1 ++ [line])) /\
    run w s = (0, mkState (fs s1) (stdout s1 ++ [line])) /\
    String.prefix command_failed line = is_CalledProcessError e /\
    String.prefix missing_tool line = is_FileNotFoundError e /\
    String.prefix unexpected_error line =
      negb (is_CalledProcessError e || is_FileNotFoundError e) /\
    is_CalledProcessError e && is_FileNotFoundError e = false.
Proof.
  intros Hb He.
  pose proof (main_after_raise _ _ _ _ Hb He) as Hm.
  exists (report_line e). unfold run. rewrite Hm.
  split; [reflexivity|]. split; [reflexivity|].
  destruct (report_line_prefixes e He) as (H1 & H2 & H3).
  repeat split; auto. now destruct e as [| []|].
Qed.

Lemma main_catches_every_exception_witness :
  body world_ok stale_temp =
    (Raise (CalledProcessError 128 (repr_list clone_argv)),
     mkState (fs stale_temp) [banner Fetch]) /\
  is_Exception (CalledProcessError 128 (repr_list clone_argv)) = true /\
  exists line,
    main world_ok stale_temp =
      (Ok tt, mkState (fs stale_temp) ([banner Fetch] ++ [line])) /\
    run world_ok stale_temp =
      (0, mkState (fs stale_temp) ([banner Fetch] ++ [line])) /\
    String.prefix command_failed line = true /\
    String.prefix missing_tool line = false /\
    String.prefix unexpected_error line = false /\
    true && false = false.
Proof.
  split; [reflexivity|]. split; [reflexivity|].
  apply (main_catches_every_exception world_ok stale_temp
           (mkState (fs stale_temp) [banner Fetch])
           (CalledProcessError 128 (repr_list clone_argv)));
    reflexivity.
Defined.

(** C5. The body is one pass through fetch, copy, cleanup, permission
    fix. When a step [k] raises [e] and leaves the state [s'], the run ends
    right there: [main] returns in the state [s'] (the file system exactly
    as the failing step left it, nothing undone) with the report of [e] as
    the one line added, and none of the lines printed during the run is the
    banner of a step after [k]: no later step was started. *)
Theorem failure_aborts_remaining_steps (w : world) (s s' : state) (k : step)
    (e : exn) :
  fails_at w s k e s' ->
  main w s = (Ok tt, reported e s') /\
  fs (reported e s') = fs s' /\
  exists printed,
    stdout (reported e s') = (stdout s ++ printed)%list /\
    forall j, later k j = true -> ~ In (banner j) printed.
Proof.
  intros H.
  assert (Hb : body w s = (Raise e, s') /\ is_Exception e = true).
  { unfold body.
    destruct H as [e s' H1|s1 e s' H1 H2|s1 s2 e s' H1 H2 H3
                  |s1 s2 s3 e s' H1 H2 H3 H4].
    - rewrite (bind_raise _ _ _ _ _ _ H1).
      eauto using clone_raises_exception.
    - rewrite (bind_ok _ _ _ _ _ _ H1), (bind_raise _ _ _ _ _ _ H2).
      eauto using copy_raises_exception.
    - rewrite (bind_ok _ _ _ _ _ _ H1), (bind_ok _ _ _ _ _ _ H2),
        (bind_raise _ _ _ _ _ _ H3).
      eauto using clean_raises_exception.
    - rewrite (bind_ok _ _ _ _ _ _ H1), (bind_ok _ _ _ _ _ _ H2),
        (bind_ok _ _ _ _ _ _ H3), (bind_raise _ _ _ _ _ _ H4).
      eauto using fix_raises_exception. }
  destruct Hb as [Hb He].
  split; [now apply main_after_raise|]. split; [reflexivity|].
  unfold reported. cbn [stdout].
  destruct H as [e s' H1|s1 e s' H1 H2|s1 s2 e s' H1 H2 H3
                |s1 s2 s3 e s' H1 H2 H3 H4].
  - apply clone_prints in H1. rewrite H1, <- app_assoc.
    eexists. split; [reflexivity|].
    intros j Hj [Hin|[Hin|[]]].
    + destruct j; discriminate.
    + now apply report_line_not_banner in Hin.
  - apply clone_prints in H1.
    apply copy_prints in H2 as (pr & H2 & Hpr).
    rewrite H2, H1, <- !app_assoc.
    eexists. split; [reflexivity|].
    intros j Hj Hin. cbn [app] in Hin.
    destruct Hin as [Hin|Hin]; [destruct j; discriminate|].
    apply in_app_or in Hin as [Hin|[Hin|[]]].
    + apply Hpr in Hin as [Hin|(y & Hin)].
      * destruct j; discriminate.
      * symmetry in Hin. now apply notice_not_banner in Hin.
    + now apply report_line_not_banner in Hin.
  - apply clone_prints in H1.
    apply copy_prints in H2 as (pr & H2 & Hpr).
    apply clean_prints in H3.
    rewrite H3, H2, H1, <- !app_assoc.
    eexists. split; [reflexivity|].
    intros j Hj Hin. cbn [app] in Hin.
    destruct Hin as [Hin|Hin]; [destruct j; discriminate|].
    apply in_app_or in Hin as [Hin|[Hin|[Hin|[]]]].
    + apply Hpr in Hin as [Hin|(y & Hin)].
      * destruct j; discriminate.
      * symmetry in Hin. now apply notice_not_banner in Hin.
    + destruct j; discriminate.
    + now apply report_line_not_banner in Hin.
  - apply clone_prints in H1.
    apply copy_prints in H2 as (pr & H2 & _).
    apply clean_prints in H3.
    apply fix_raise in H4 as [-> _]. cbn [stdout].
    rewrite H3, H2, H1, <- !app_assoc.
    eexists. split; [reflexivity|].
    intros j Hj. destruct j; discriminate.
Qed.

Lemma failure_aborts_remaining_steps_witness :
  fails_at world_no_git start Fetch (FileNotFoundError "git")
    (mkState (fs start) [banner Fetch]) /\
  main world_no_git start =
    (Ok tt, reported (FileNotFoundError "git")
              (mkState (fs start) [banner Fetch])) /\
  fs (reported (FileNotFoundError "git") (mkState (fs start) [banner Fetch]))
    = fs start /\
  exists printed,
    stdout (reported (FileNotFoundError "git")
              (mkState (fs start) [banner Fetch]))
      = (stdout start ++ printed)%list /\
    forall j, later Fetch j = true -> ~ In (banner j) printed.
Proof.
  assert (H : fails_at world_no_git start Fetch (FileNotFoundError "git")
                (mkState (fs start) [banner Fetch]))
    by (apply fails_fetch; reflexivity).
  split; [exact H|].
  exact (failure_aborts_remaining_steps world_no_git start _ Fetch _ H).
Defined.

(** C6, as stated, fails: on a machine without [/bin/zsh] the first three
    steps go through, [temp-wp] is removed, and the failure of the fourth
    is reported under the missing-tool prefix, not the command-failure
    prefix. *)
Lemma missing_shell_is_not_command_failure :
  zsh_installed world_no_zsh = false /\
  fails_at world_no_zsh start Fix (FileNotFoundError "/bin/zsh")
    (snd (body world_no_zsh start)) /\
  resolve (fs (snd (run world_no_zsh start))) TEMP_DIR = NoEnt /\
  String.prefix command_failed
    (last (stdout (snd (run world_no_zsh start))) "") = false /\
  String.prefix missing_tool
    (last (stdout (snd (run world_no_zsh start))) "") = true.
Proof.
  split; [reflexivity|]. split.
  - eapply fails_fix; reflexivity.
  - vm_compute. repeat split.
Qed.

(** C6, as amended. When the first three steps go through and [/bin/zsh]
    is not there, the run ends with [temp-wp] removed, with [themes] exactly
    as the copy step left it (contents, owners and permission bits), and
    with the failure reported under the missing-tool prefix, not the
    command-failure prefix. *)
Theorem missing_shell_after_cleanup (w : world) (s s1 s2 s3 : state) :
  zsh_installed w = false ->
  clone_wordpress_repo w s = (Ok tt, s1) ->
  copy_themes w s1 = (Ok tt, s2) ->
  clean_temp w s2 = (Ok tt, s3) ->
  exists s' line,
    run w s = (0, s') /\
    resolve (fs s') TEMP_DIR = NoEnt /\
    resolve (fs s') THEMES_TARGET = resolve (fs s2) THEMES_TARGET /\
    stdout s' = (stdout s3 ++ [banner Fix; line])%list /\
    String.prefix missing_tool line = true /\
    String.prefix command_failed line = false.
Proof.
  intros Hz H1 H2 H3.
  pose proof (fix_no_zsh w s3 Hz) as H4.
  assert (Hm : main w s = (Ok tt, reported (FileNotFoundError "/bin/zsh")
                 (mkState (fs s3) (stdout s3 ++ [banner Fix])))).
  { apply main_after_raise; [|reflexivity]. unfold body.
    now rewrite (bind_ok _ _ _ _ _ _ H1), (bind_ok _ _ _ _ _ _ H2),
      (bind_ok _ _ _ _ _ _ H3), (bind_raise _ _ _ _ _ _ H4). }
  eexists. exists (report_line (FileNotFoundError "/bin/zsh")).
  unfold run. rewrite Hm. split; [reflexivity|].
  apply clean_temp_ok in H3. subst s3. cbn [reported fs stdout].
  unfold TEMP_DIR, THEMES_TARGET. rewrite !resolve_one.
  rewrite assoc_del_same, assoc_del_other by (symmetry; apply temp_not_themes).
  repeat split. now rewrite <- app_assoc.
Qed.

Lemma missing_shell_after_cleanup_witness :
  zsh_installed world_no_zsh = false /\
  clone_wordpress_repo world_no_zsh start = (Ok tt, cloned) /\
  exists s2 s3,
    copy_themes world_no_zsh cloned = (Ok tt, s2) /\
    clean_temp world_no_zsh s2 = (Ok tt, s3) /\
    exists s' line,
      run world_no_zsh start = (0, s') /\
      resolve (fs s') TEMP_DIR = NoEnt /\
      resolve (fs s') THEMES_TARGET = resolve (fs s2) THEMES_TARGET /\
      stdout s' = (stdout s3 ++ [banner Fix; line])%list /\
      String.prefix missing_tool line = true /\
      String.prefix command_failed line = false.
Proof.
  split; [reflexivity|]. split; [reflexivity|].
  exists (snd (copy_themes world_no_zsh cloned)),
         (snd (clean_temp world_no_zsh (snd (copy_themes world_no_zsh cloned)))).
  split; [reflexivity|]. split; [reflexivity|].
  apply (missing_shell_after_cleanup world_no_zsh start cloned); reflexivity.
Defined.

(** C7. When [git] is not installed the run prints the banner of the
    fetch step and one line with the missing-tool prefix, exits with status
    0, and leaves the whole working directory, hence the destination,
    exactly as it was: nothing created, changed or removed. *)
Theorem missing_git_leaves_destination (w : world) (s : state) :
  git_installed w = false ->
  exists s' line,
    run w s = (0, s') /\
    fs s' = fs s /\
    resolve (fs s') THEMES_TARGET = resolve (fs s) THEMES_TARGET /\
    stdout s' = (stdout s ++ [banner Fetch; line])%list /\
    String.prefix missing_tool line = true.
Proof.
  intros Hg. pose proof (clone_no_git w s Hg) as H1.
  assert (Hm : main w s = (Ok tt, reported (FileNotFoundError "git")
                 (mkState (fs s) (stdout s ++ [banner Fetch])))).
  { apply main_after_raise; [|reflexivity]. unfold body.
    now rewrite (bind_raise _ _ _ _ _ _ H1). }
  eexists. exists (report_line (FileNotFoundError "git")).
  unfold run. rewrite Hm. cbn [reported fs stdout].
  repeat split. unfold reported. cbn [stdout]. now rewrite <- app_assoc.
Qed.

Lemma missing_git_leaves_destination_witness :
  git_installed world_no_git = false /\
  exists s' line,
    run world_no_git start = (0, s') /\
    fs s' = fs start /\
    resolve (fs s') THEMES_TARGET = resolve (fs start) THEMES_TARGET /\
    stdout s' = (stdout start ++ [banner Fetch; line])%list /\
    String.prefix missing_tool line = true.
Proof.
  split; [reflexivity|].
  apply (missing_git_leaves_destination world_no_git start). reflexivity.
Defined.

(** C8, as stated, fails: when an earlier run left a [temp-wp] with
    something in it, [git clone] refuses to use it, the fetch step fails,
    and [temp-wp] is still there after the run. *)
Lemma failed_fetch_can_leave_temp_dir :
  clone_wordpress_repo world_ok stale_temp =
    (Raise (CalledProcessError 128 (repr_list clone_argv)),
     mkState (fs stale_temp) [banner Fetch]) /\
  resolve (fs (snd (run world_ok stale_temp))) TEMP_DIR =
    Found (Dir st_git [("readme.html", File st_git "")]).
Proof. split; reflexivity. Qed.

(** C8, as amended. The script cleans up nothing after a failure. When
    the fetch step fails, the working directory, [temp-wp] included, is
    after the run exactly as the failed step left it: what [git] refused to
    use or left behind is still there. When the permission-fix step fails,
    [temp-wp] is already removed and every entry the copy step left under
    [themes] is still there with the same shape, names and file data. *)
Theorem failure_leaves_temp_dir (w : world) (s s' : state) (k : step)
    (e : exn) :
  fails_at w s k e s' ->
  (k = Fetch ->
   fs (snd (run w s)) = fs s' /\
   resolve (fs (snd (run w s))) TEMP_DIR = resolve (fs s') TEMP_DIR) /\
  (k = Fix ->
   resolve (fs (snd (run w s))) TEMP_DIR = NoEnt /\
   forall s1 s2 Y n,
     clone_wordpress_repo w s = (Ok tt, s1) ->
     copy_themes w s1 = (Ok tt, s2) ->
     resolve (fs s2) (THEMES_TARGET / Y)%path = Found n ->
     exists n',
       resolve (fs (snd (run w s))) (THEMES_TARGET / Y)%path = Found n' /\
       forget n' = forget n).
Proof.
  intros H.
  destruct H as [e s' H1|s1 e s' H1 H2|s1 s2 e s' H1 H2 H3
                |s1 s2 s3 e s' H1 H2 H3 H4];
    (split; [intros Hk|intros Hk]); try discriminate.
  - assert (Hm : main w s = (Ok tt, reported e s')).
    { apply main_after_raise; [|eauto using clone_raises_exception].
      unfold body. now rewrite (bind_raise _ _ _ _ _ _ H1). }
    unfold run. rewrite Hm. cbn [snd reported fs]. auto.
  - assert (Hm : main w s = (Ok tt, reported e s')).
    { apply main_after_raise; [|eauto using fix_raises_exception].
      unfold body.
      now rewrite (bind_ok _ _ _ _ _ _ H1), (bind_ok _ _ _ _ _ _ H2),
        (bind_ok _ _ _ _ _ _ H3), (bind_raise _ _ _ _ _ _ H4). }
    unfold run. rewrite Hm. cbn [snd reported fs].
    apply fix_raise in H4 as [-> _]. apply clean_temp_ok in H3. subst s3.
    cbn [fs]. split.
    + unfold TEMP_DIR. now rewrite resolve_one, assoc_del_same.
    + intros s1' s2' Y n H1' H2' Hn. rewrite H1 in H1'. injection H1' as <-.
      rewrite H2 in H2'. injection H2' as <-.
      exists n. split; [|reflexivity]. rewrite <- Hn.
      apply resolve_head, assoc_del_other.
      intros E. symmetry in E. now apply temp_not_themes in E.
Qed.

Lemma failure_leaves_temp_dir_witness :
  (fails_at world_ok stale_temp Fetch
     (CalledProcessError 128 (repr_list clone_argv))
     (mkState (fs stale_temp) [banner Fetch]) /\
   fs (snd (run world_ok stale_temp)) = fs stale_temp /\
   resolve (fs (snd (run world_ok stale_temp))) TEMP_DIR =
     resolve (fs stale_temp) TEMP_DIR) /\
  (fails_at world_no_zsh start Fix (FileNotFoundError "/bin/zsh")
     (snd (body world_no_zsh start)) /\
   resolve (fs (snd (run world_no_zsh start))) TEMP_DIR = NoEnt).
Proof.
  assert (H : fails_at world_ok stale_temp Fetch
                (CalledProcessError 128 (repr_list clone_argv))
                (mkState (fs stale_temp) [banner Fetch]))
    by (apply fails_fetch; reflexivity).
  assert (H' : fails_at world_no_zsh start Fix (FileNotFoundError "/bin/zsh")
                 (snd (body world_no_zsh start)))
    by (eapply fails_fix; reflexivity).
  split; (split; [assumption|]).
  - exact (proj1 (failure_leaves_temp_dir world_ok stale_temp _ Fetch _ H)
             eq_refl).
  - exact (proj1 (proj2 (failure_leaves_temp_dir world_no_zsh start _ Fix _ H')
                    eq_refl)).
Defined.






(** *** Sample runs *)

(** The copy step on a clone with [twentytwenty], [twentyseventeen] and
    [index.php], into a destination that already has [twentyseventeen]:
    the old theme is left as it was and reported, the two others are
    copied. *)
Example copy_step_scenario :
  copy_themes world_ok cloned =
  (Ok tt,
   mkState
     [("themes",
       Dir st_root
         [("twentyseventeen", old_theme);
          ("twentytwenty",
           Dir (mkStat "dev" 420 100)
               [("style.css", File (mkStat "dev" 420 100) "body{}")]);
          ("index.php", File (mkStat "dev" 420 100) "<?php // Silence")]);
      ("temp-wp", Dir (fresh_dir world_ok) checkout)]
     ["🚀 Cloning WordPress repo...";
      "📂 Copying themes to ./themes...";
      "⚠️ Skipping existing: twentyseventeen"]).
Proof. reflexivity. Qed.

(** Without [sudo] the shell runs and exits with status 127: this is the
    failure that is reported under the command-failure prefix. *)
Example missing_sudo_scenario :
  last (stdout (snd (run world_no_sudo start))) "" =
  "❌ Command failed: Command 'sudo chown -R $USER:$USER themes && chmod -R 775 themes' returned non-zero exit status 127.".
Proof. reflexivity. Qed.

(** A full run on a machine with every tool. *)
Example full_run_scenario :
  fst (run world_ok start) = 0 /\
  stdout (snd (run world_ok start)) =
  ["🚀 Cloning WordPress repo...";
   "📂 Copying themes to ./themes...";
   "⚠️ Skipping existing: twentyseventeen";
   "🧹 Removing temp folder...";
   "🔧 Fixing ownership and permissions on ./themes ...";
   "✅ Permissions fixed.";
   "✅ All done!"] /\
  names (fs (snd (run world_ok start))) = ["themes"] /\
  (forall n, resolve (fs (snd (run world_ok start))) THEMES_TARGET = Found n ->
             owned_by "dev" n = true).
Proof.
  repeat split. intros n [= <-]. reflexivity.
Qed.

End Properties.

(* ================================================================= *)
(** ** More on the steps *)

Module MoreSteps.
Import FS Py Script Model Observe FSFacts Steps.

(** *** More on the copy loop *)

Lemma copy_into_absent (w : world) (S : entries) (x : string)
    (ys : list string) :
  forall T,
    assoc x T = None -> assoc x S = None ->
    assoc x (copy_into w S ys T) = None.
Proof.
  induction ys as [|y ys IH]; intros T Hx HS; cbn [copy_into]; auto.
  destruct (assoc y T) eqn:Hy; auto.
  destruct (assoc y S) eqn:Hm; auto.
  apply IH; auto. rewrite assoc_set_other; auto.
  intros ->. congruence.
Qed.

Lemma copy_into_covered (w : world) (S : entries) (ys : list string) :
  forall T,
    (forall y, In y ys -> assoc y T <> None) -> copy_into w S ys T = T.
Proof.
  induction ys as [|y ys IH]; intros T H; cbn [copy_into]; auto.
  destruct (assoc y T) eqn:Hy.
  - apply IH. intros; apply H; now right.
  - exfalso. apply (H y); [now left|assumption].
Qed.

Lemma copy_into_covers (w : world) (S : entries) (T : entries) (y : string) :
  In y (names S) -> assoc y (copy_into w S (names S) T) <> None.
Proof.
  intros Hy.
  destruct (assoc y S) as [m|] eqn:Hm;
    [|now apply assoc_in_names in Hy].
  destruct (assoc y T) as [n|] eqn:Hn.
  - now rewrite (copy_into_keeps w S y n).
  - rewrite (copy_into_adds w S y m); auto; [discriminate|].
    intros z. apply assoc_in_names.
Qed.

Lemma notices_covered (w : world) (S : entries) (ys : list string) :
  forall T,
    (forall y, In y ys -> assoc y T <> None) ->
    notices w S ys T = map notice ys.
Proof.
  induction ys as [|y ys IH]; intros T H; cbn [notices map]; auto.
  destruct (assoc y T) eqn:Hy.
  - unfold notice at 1. f_equal. apply IH. intros; apply H; now right.
  - exfalso. apply (H y); [now left|assumption].
Qed.

Lemma notices_clashing (w : world) (S : entries) (ys : list string) :
  NoDup ys ->
  (forall y, In y ys -> assoc y S <> None) ->
  forall T,
    notices w S ys T =
    map notice
      (filter (fun y => match assoc y T with Some _ => true | None => false end)
              ys).
Proof.
  induction ys as [|y ys IH]; intros Hnd Hall T; cbn [notices filter map]; auto.
  inversion Hnd as [|? ? Hy Hnd']; subst.
  assert (Hall' : forall z, In z ys -> assoc z S <> None)
    by (intros; apply Hall; now right).
  destruct (assoc y T) eqn:HyT.
  - cbn [map]. unfold notice at 1. f_equal. now apply IH.
  - destruct (assoc y S) eqn:HyS.
    2:{ exfalso. apply (Hall y); [now left|assumption]. }
    rewrite IH by assumption. f_equal.
    apply filter_ext_in. intros z Hz.
    rewrite assoc_set_other; auto. intros ->. contradiction.
Qed.

(** The state of the destination the step lemmas speak of, read off the
    path. *)
Lemma dest_before_resolve (w : world) (cwd : entries) (tst : stat)
    (T : entries) (y : string) :
  dest_before w cwd = Some (tst, T) ->
  resolve cwd (THEMES_TARGET / y)%path =
  match assoc y T with Some n => Found n | None => NoEnt end.
Proof.
  unfold dest_before. change (THEMES_TARGET / y)%path with ["themes"; y].
  rewrite resolve_two.
  destruct (assoc "themes" cwd) as [[|st' T']|]; intros [= <- <-]; reflexivity.
Qed.

Lemma dest_before_none (w : world) (cwd : entries) :
  dest_before w cwd = None <->
  exists st d, resolve cwd THEMES_TARGET = Found (File st d).
Proof.
  unfold dest_before, THEMES_TARGET. rewrite resolve_one.
  destruct (assoc "themes" cwd) as [[st d|st T]|]; split;
    try discriminate; eauto; intros (st' & d' & H); discriminate.
Qed.

(** Whatever its outcome, [copy_themes] leaves the working directory with
    [themes] set to some directory and nothing else changed. *)
Lemma copy_themes_shape (w : world) (s s' : state) (r : result unit) :
  copy_themes w s = (r, s') ->
  fs s' = fs s \/
  exists tst T T',
    dest_before w (fs s) = Some (tst, T) /\
    fs s' = set_assoc "themes" (Dir tst T') (fs s) /\
    (forall x n, assoc x T = Some n -> assoc x T' = Some n).
Proof.
  intros H.
  destruct (copy_themes_cases w s)
    as [(st & d & _ & E)|(tst & T & Hb & [(sst & S & _ & E)|(en & _ & E)])];
    rewrite E in H; injection H as <- <-; cbn [fs]; auto.
  - right. exists tst, T, (copy_into w S (names S) T).
    repeat split; auto. intros x n. apply copy_into_keeps.
  - right. exists tst, T, T. repeat split; auto.
Qed.

(** Whatever its outcome, [copy_themes] changes no entry of the working
    directory but [themes]. *)
Lemma copy_themes_frame (w : world) (s s' : state) (r : result unit)
    (c : string) :
  copy_themes w s = (r, s') ->
  c <> "themes" ->
  assoc c (fs s') = assoc c (fs s).
Proof.
  intros H Hc.
  destruct (copy_themes_shape _ _ _ _ H) as [->|(tst & T & T' & _ & -> & _)];
    [reflexivity|].
  now apply assoc_set_other.
Qed.

(** Whatever its outcome and whatever the source holds, [copy_themes]
    leaves every entry the destination already has as it is. *)
Lemma copy_themes_keeps (w : world) (s s' : state)
    (r : result unit) (X : string) (n : node) :
  copy_themes w s = (r, s') ->
  resolve (fs s) (THEMES_TARGET / X)%path = Found n ->
  resolve (fs s') (THEMES_TARGET / X)%path = Found n.
Proof.
  intros H Hn.
  destruct (copy_themes_shape _ _ _ _ H) as [->|(tst & T & T' & Hb & -> & HT)];
    [assumption|].
  rewrite (dest_before_resolve _ _ _ _ X Hb) in Hn.
  destruct (assoc X T) as [n0|] eqn:HX; [|discriminate]. injection Hn as ->.
  change (THEMES_TARGET / X)%path with ["themes"; X].
  rewrite resolve_two, assoc_set_same. now rewrite (HT X n).
Qed.

(** *** Trees under [chown -R] and [chmod -R] *)

Lemma assoc_map_nodes (f : node -> node) (k : string) (l : entries) :
  assoc k (map (fun kc => (fst kc, f (snd kc))) l) = option_map f (assoc k l).
Proof.
  induction l as [|[k' n] l IH]; cbn [map assoc fst snd]; auto.
  now destruct (String.eqb k k').
Qed.

Lemma map_nodes_ext (f g : node -> node) (l : entries) :
  Forall (fun kc => f (snd kc) = g (snd kc)) l ->
  map (fun kc => (fst kc, f (snd kc))) l =
  map (fun kc => (fst kc, g (snd kc))) l.
Proof.
  induction 1 as [|[k n] l H _ IH]; cbn [map fst snd] in *; auto.
  now rewrite H, IH.
Qed.

Lemma forget_chown (u : string) (n : node) : forget (chown_R u n) = forget n.
Proof.
  induction n as [st d|st cs IH] using node_induction;
    cbn [forget chown_R]; auto.
  f_equal. rewrite map_map. cbn [fst snd]. now apply (map_nodes_ext (fun x => forget (chown_R u x)) forget).
Qed.

Lemma forget_chmod (m : Z) (n : node) : forget (chmod_R m n) = forget n.
Proof.
  induction n as [st d|st cs IH] using node_induction;
    cbn [forget chmod_R]; auto.
  f_equal. rewrite map_map. cbn [fst snd]. now apply (map_nodes_ext (fun x => forget (chmod_R m x)) forget).
Qed.

Lemma chown_chown (u : string) (n : node) :
  chown_R u (chown_R u n) = chown_R u n.
Proof.
  induction n as [st d|st cs IH] using node_induction;
    cbn [chown_R]; auto.
  f_equal. rewrite map_map. cbn [fst snd]. now apply (map_nodes_ext (fun x => chown_R u (chown_R u x)) (chown_R u)).
Qed.

Lemma chmod_chmod (m : Z) (n : node) :
  chmod_R m (chmod_R m n) = chmod_R m n.
Proof.
  induction n as [st d|st cs IH] using node_induction;
    cbn [chmod_R]; auto.
  f_equal. rewrite map_map. cbn [fst snd]. now apply (map_nodes_ext (fun x => chmod_R m (chmod_R m x)) (chmod_R m)).
Qed.

Lemma chown_chmod (u : string) (m : Z) (n : node) :
  chown_R u (chmod_R m n) = chmod_R m (chown_R u n).
Proof.
  induction n as [st d|st cs IH] using node_induction;
    cbn [chown_R chmod_R]; auto.
  f_equal. rewrite !map_map. cbn [fst snd]. now apply (map_nodes_ext (fun x => chown_R u (chmod_R m x))
                      (fun x => chmod_R m (chown_R u x))).
Qed.

(** What the shell command does to the working directory when it ends
    with status 0. *)
Lemma sh_fix_success (w : world) (cwd : entries) :
  fst (sh_fix w cwd) = 0 ->
  sudo_installed w = true /\ sudo_granted w = true /\
  exists n,
    assoc "themes" cwd = Some n /\
    snd (sh_fix w cwd) =
    set_assoc "themes" (chmod_R 509 (chown_R (user w) n)) cwd.
Proof.
  unfold sh_fix.
  destruct (sudo_installed w), (sudo_granted w);
    cbn [negb fst snd]; try discriminate.
  destruct (assoc "themes" cwd) as [n|] eqn:Ht; cbn [fst snd];
    [|discriminate].
  intros _. repeat split. exists n. split; [reflexivity|].
  unfold update. cbn [split_last alter].
  rewrite (map_entry_set _ _ _ _ Ht).
  rewrite (map_entry_set _ _ _ _ (assoc_set_same _ _ _)).
  now rewrite set_assoc_twice.
Qed.

Lemma sh_fix_status (w : world) (cwd : entries) :
  fst (sh_fix w cwd) =
  if sudo_installed w && sudo_granted w
  then match assoc "themes" cwd with Some _ => 0 | None => 1 end
  else sudo_status w.
Proof.
  unfold sh_fix, sudo_status.
  destruct (sudo_installed w), (sudo_granted w), (assoc "themes" cwd);
    reflexivity.
Qed.

Lemma fix_ok_inv (w : world) (s s' : state) :
  fix_theme_permissions w s = (Ok tt, s') ->
  zsh_installed w = true /\ fst (sh_fix w (fs s)) = 0 /\
  s' = mkState (snd (sh_fix w (fs s)))
         (stdout s ++ [banner Fix; "✅ Permissions fixed."]).
Proof.
  destruct (zsh_installed w) eqn:Hz.
  - rewrite fix_with_zsh by assumption. cbv zeta.
    destruct (fst (sh_fix w (fs s)) =? 0) eqn:E; [|discriminate].
    apply Z.eqb_eq in E. intros [= <-]. rewrite <- app_assoc. auto.
  - rewrite fix_no_zsh by assumption. discriminate.
Qed.

Lemma fix_prints (w : world) (s s1 : state) (r : result unit) :
  fix_theme_permissions w s = (r, s1) ->
  stdout s1 =
  (stdout s ++ banner Fix ::
     match r with Ok _ => ["✅ Permissions fixed."] | Raise _ => [] end)%list.
Proof.
  destruct r as [[]|e]; intros H.
  - now apply fix_ok_inv in H as (_ & _ & ->).
  - now apply fix_raise in H as [-> _].
Qed.

(** When [git clone] ends with status 0. *)
Lemma git_clone_status (w : world) (cwd : entries) :
  fst (git w (tl clone_argv) cwd) = 0 <->
  (resolve cwd TEMP_DIR = NoEnt \/
   exists st, resolve cwd TEMP_DIR = Found (Dir st [])) /\
  exists tree, remote w WP_REPO = Some tree.
Proof.
  unfold TEMP_DIR. rewrite resolve_one. unfold git, clone_argv, tl.
  destruct (assoc "temp-wp" cwd) as [[st d|st [|c cs]]|];
    destruct (remote w WP_REPO) as [tree|]; cbn [fst]; split;
    try discriminate; try (intros _; eauto; fail);
    intros [[H|(st' & H)] (tree' & H')]; discriminate.
Qed.

(** The checkout under [temp-wp] is what the paths into the clone
    resolve in. *)
Lemma resolve_in_clone (cwd : entries) (st : stat) (tree : entries)
    (c : string) (p : path) :
  assoc "temp-wp" cwd = Some (Dir st tree) ->
  resolve cwd ("temp-wp" :: c :: p) = resolve tree (c :: p).
Proof. intros H. cbn [resolve]. now rewrite H. Qed.

(** After a successful fetch and whatever the copy step did, [temp-wp] is
    the directory holding the checkout. *)
Lemma temp_after_copy (w : world) (s s1 s2 : state) (r : result unit) :
  clone_wordpress_repo w s = (Ok tt, s1) ->
  copy_themes w s1 = (r, s2) ->
  exists st tree,
    remote w WP_REPO = Some tree /\
    assoc "temp-wp" (fs s2) = Some (Dir st tree).
Proof.
  intros H1 H2. apply clone_ok in H1 as (st & tree & Hr & ->).
  exists st, tree. split; [assumption|].
  rewrite (copy_themes_frame _ _ _ _ "temp-wp" H2 temp_not_themes).
  cbn [fs]. apply assoc_set_same.
Qed.

Lemma bind_inv {A B} (c : M A) (f : A -> M B) (w : world) (s s' : state)
    (r : result B) :
  bind c f w s = (r, s') ->
  (exists a s1, c w s = (Ok a, s1) /\ f a w s1 = (r, s')) \/
  (exists e, c w s = (Raise e, s') /\ r = Raise e).
Proof.
  unfold bind. destruct (c w s) as [[a|e] s1]; [eauto|].
  intros [= <- <-]. eauto.
Qed.

Lemma themes_entry_head (cwd cwd' : entries) (X : string) :
  assoc "themes" cwd' = assoc "themes" cwd ->
  resolve cwd' (THEMES_TARGET / X)%path = resolve cwd (THEMES_TARGET / X)%path.
Proof. intros H. now apply resolve_head. Qed.

Lemma clone_keeps_themes (w : world) (s s1 : state) (r : result unit) :
  clone_wordpress_repo w s = (r, s1) ->
  assoc "themes" (fs s1) = assoc "themes" (fs s).
Proof.
  destruct r as [[]|e]; intros H.
  - apply clone_ok in H as (st & tree & _ & ->). cbn [fs].
    apply assoc_set_other. intros E. symmetry in E.
    now apply temp_not_themes in E.
  - now apply clone_raise in H as [-> _].
Qed.

Lemma clean_keeps_themes (w : world) (s s1 : state) (r : result unit) :
  clean_temp w s = (r, s1) ->
  assoc "themes" (fs s1) = assoc "themes" (fs s).
Proof.
  destruct r as [[]|e]; intros H.
  - apply clean_temp_ok in H as ->. cbn [fs].
    apply assoc_del_other. intros E. symmetry in E.
    now apply temp_not_themes in E.
  - now apply clean_temp_raise in H as ->.
Qed.

Lemma fix_entry (w : world) (s s' : state) (X : string) (n : node) :
  fix_theme_permissions w s = (Ok tt, s') ->
  resolve (fs s) (THEMES_TARGET / X)%path = Found n ->
  resolve (fs s') (THEMES_TARGET / X)%path
  = Found (chmod_R 509 (chown_R (user w) n)).
Proof.
  intros H Hn. apply fix_ok_inv in H as (_ & H0 & ->).
  apply sh_fix_success in H0 as (_ & _ & t & Ht & E). cbn [fs]. rewrite E.
  change (THEMES_TARGET / X)%path with ["themes"; X] in *.
  rewrite resolve_two in *. rewrite assoc_set_same. rewrite Ht in Hn.
  destruct t as [|st T]; [discriminate|]. cbn [chown_R chmod_R].
  rewrite !assoc_map_nodes.
  destruct (assoc X T); [|discriminate]. now injection Hn as ->.
Qed.

(** An entry of the destination through the body: as it was when the body
    raised, given to the user with permission bits 0o775 when it went
    through. *)
Lemma body_keeps_entry (w : world) (s s' : state) (r : result unit)
    (X : string) (n : node) :
  body w s = (r, s') ->
  resolve (fs s) (THEMES_TARGET / X)%path = Found n ->
  resolve (fs s') (THEMES_TARGET / X)%path =
  Found (match r with
         | Ok _ => chmod_R 509 (chown_R (user w) n)
         | Raise _ => n
         end).
Proof.
  unfold body. intros H Hn.
  apply bind_inv in H as [([] & s1 & H1 & H)|(e & H1 & ->)].
  2:{ now rewrite (themes_entry_head _ _ X (clone_keeps_themes _ _ _ _ H1)). }
  rewrite <- (themes_entry_head _ _ X (clone_keeps_themes _ _ _ _ H1)) in Hn.
  apply bind_inv in H as [([] & s2 & H2 & H)|(e & H2 & ->)].
  2:{ eapply copy_themes_keeps; eauto. }
  apply (copy_themes_keeps _ _ _ _ _ _ H2) in Hn.
  apply bind_inv in H as [([] & s3 & H3 & H)|(e & H3 & ->)].
  2:{ now rewrite (themes_entry_head _ _ X (clean_keeps_themes _ _ _ _ H3)). }
  rewrite <- (themes_entry_head _ _ X (clean_keeps_themes _ _ _ _ H3)) in Hn.
  apply bind_inv in H as [([] & s4 & H4 & H)|(e & H4 & ->)].
  2:{ now apply fix_raise in H4 as [-> _]. }
  injection H as <- <-. cbn [fs]. now apply (fix_entry w s3).
Qed.

End MoreSteps.

(* ================================================================= *)
(** ** Further properties of the script *)

Module Extra.
Import FS Py Script Model Observe Examples FSFacts Steps MoreSteps.

(** X1. Whatever its outcome, the copy step changes nothing outside
    [themes]: every path that starts with another name, the clone under
    [temp-wp] included, resolves as before. *)
Theorem copy_themes_touches_only_themes (w : world) (s s' : state)
    (r : result unit) (c : string) (p : path) :
  copy_themes w s = (r, s') ->
  c <> "themes" ->
  resolve (fs s') (c :: p) = resolve (fs s) (c :: p).
Proof.
  intros H Hc. apply resolve_head. now apply (copy_themes_frame w s s' r).
Qed.

Lemma copy_themes_touches_only_themes_witness :
  copy_themes world_ok cloned = (Ok tt, snd (copy_themes world_ok cloned)) /\
  "temp-wp" <> "themes" /\
  resolve (fs (snd (copy_themes world_ok cloned)))
    ["temp-wp"; "wp-content"; "themes"; "twentytwenty"; "style.css"] =
  resolve (fs cloned)
    ["temp-wp"; "wp-content"; "themes"; "twentytwenty"; "style.css"].
Proof.
  split; [reflexivity|]. split; [discriminate|].
  apply (copy_themes_touches_only_themes world_ok cloned _ (Ok tt));
    [reflexivity|discriminate].
Defined.

(** X2. The copy step adds nothing of its own: a name that is neither at
    the destination nor in the source themes directory is still missing at
    the destination after a successful copy. *)
Theorem copy_themes_adds_only_source_names (w : world) (s s' : state)
    (Y : string) :
  copy_themes w s = (Ok tt, s') ->
  resolve (fs s) (THEMES_TARGET / Y)%path = NoEnt ->
  resolve (fs s) (source_themes / Y)%path = NoEnt ->
  resolve (fs s') (THEMES_TARGET / Y)%path = NoEnt.
Proof.
  intros H Hd Hsrc.
  destruct (copy_themes_cases w s)
    as [(st & d & _ & E)|(tst & T & Hb & [(sst & S & Hs & E)|(en & _ & E)])];
    rewrite E in H; try discriminate.
  injection H as <-. cbn [fs].
  rewrite (dest_before_resolve _ _ _ _ Y Hb) in Hd.
  rewrite (resolve_child _ _ _ _ Y Hs) in Hsrc.
  change (THEMES_TARGET / Y)%path with ["themes"; Y].
  rewrite resolve_two, assoc_set_same.
  rewrite copy_into_absent; auto.
  - now destruct (assoc Y T).
  - now destruct (assoc Y S).
Qed.

Lemma copy_themes_adds_only_source_names_witness :
  copy_themes world_ok cloned = (Ok tt, snd (copy_themes world_ok cloned)) /\
  resolve (fs cloned) (THEMES_TARGET / "twentynineteen")%path = NoEnt /\
  resolve (fs cloned) (source_themes / "twentynineteen")%path = NoEnt /\
  resolve (fs (snd (copy_themes world_ok cloned)))
    (THEMES_TARGET / "twentynineteen")%path = NoEnt.
Proof.
  split; [reflexivity|]. split; [reflexivity|]. split; [reflexivity|].
  apply (copy_themes_adds_only_source_names world_ok cloned); reflexivity.
Defined.

(** X3. The copy step is idempotent: run again right after it succeeded
    on a source listing [S], it succeeds, leaves the working directory
    unchanged, and what it adds to the output is its banner followed by
    one skip notice for each entry of [S], in order. *)
Theorem copy_themes_again_changes_nothing (w : world) (s s1 : state)
    (sst : stat) (S : entries) :
  copy_themes w s = (Ok tt, s1) ->
  resolve (fs s) source_themes = Found (Dir sst S) ->
  exists s2,
    copy_themes w s1 = (Ok tt, s2) /\
    fs s2 = fs s1 /\
    stdout s2 = (stdout s1 ++ banner Copy :: map notice (names S))%list.
Proof.
  intros H Hs.
  destruct (copy_themes_cases w s)
    as [(st & d & _ & E)|(tst & T & Hb & [(sst' & S' & Hs' & E)|(en & _ & E)])];
    rewrite E in H; try discriminate.
  injection H as <-. cbn [fs stdout].
  rewrite Hs in Hs'. injection Hs' as <- <-.
  set (T1 := copy_into w S (names S) T).
  set (cwd1 := set_assoc "themes" (Dir tst T1) (fs s)).
  set (out1 := (stdout s ++ "📂 Copying themes to ./themes..."
                       :: notices w S (names S) T)%list).
  assert (Hb1 : dest_before w cwd1 = Some (tst, T1))
    by (unfold dest_before, cwd1; now rewrite assoc_set_same).
  assert (Hs1 : resolve cwd1 source_themes = Found (Dir sst S)).
  { unfold cwd1, source_themes, TEMP_DIR, joinpath in *. cbn [app] in *.
    now rewrite source_frame. }
  pose proof (copy_themes_ok w (mkState cwd1 out1) tst sst T1 S Hb1 Hs1) as E2.
  cbn [fs stdout] in E2.
  assert (Hcov : forall y, In y (names S) -> assoc y T1 <> None)
    by (intros y; apply copy_into_covers).
  rewrite (copy_into_covered w S (names S) T1 Hcov) in E2.
  rewrite (notices_covered w S (names S) T1 Hcov) in E2.
  eexists. split; [exact E2|]. cbn [fs stdout]. split; [|reflexivity].
  unfold cwd1. now rewrite set_assoc_twice.
Qed.

Lemma copy_themes_again_changes_nothing_witness :
  copy_themes world_ok cloned = (Ok tt, snd (copy_themes world_ok cloned)) /\
  resolve (fs cloned) source_themes = Found (Dir st_git checkout_themes) /\
  exists s2,
    copy_themes world_ok (snd (copy_themes world_ok cloned)) = (Ok tt, s2) /\
    fs s2 = fs (snd (copy_themes world_ok cloned)) /\
    stdout s2 =
      (stdout (snd (copy_themes world_ok cloned)) ++
       [banner Copy; notice "twentytwenty"; notice "twentyseventeen";
        notice "index.php"])%list.
Proof.
  split; [reflexivity|]. split; [reflexivity|].
  apply (copy_themes_again_changes_nothing world_ok cloned _ st_git
           checkout_themes); reflexivity.
Defined.

(** X4. When the source directory lists every name once, a successful copy
    step prints, after its banner, one skip notice for each source name
    that was at the destination before, in the order of the source, and
    nothing else. *)
Theorem copy_themes_notices_exactly_clashes (w : world) (s s' : state)
    (sst : stat) (S : entries) :
  copy_themes w s = (Ok tt, s') ->
  resolve (fs s) source_themes = Found (Dir sst S) ->
  NoDup (names S) ->
  stdout s' =
  (stdout s ++ banner Copy
          :: map notice (filter (at_destination (fs s)) (names S)))%list.
Proof.
  intros H Hs Hnd.
  destruct (copy_themes_cases w s)
    as [(st & d & _ & E)|(tst & T & Hb & [(sst' & S' & Hs' & E)|(en & _ & E)])];
    rewrite E in H; try discriminate.
  injection H as <-. cbn [stdout].
  rewrite Hs in Hs'. injection Hs' as <- <-.
  rewrite notices_clashing; auto; [|intros y; apply assoc_in_names].
  do 3 f_equal. apply filter_ext. intros y. unfold at_destination.
  rewrite (dest_before_resolve _ _ _ _ y Hb). now destruct (assoc y T).
Qed.

Lemma copy_themes_notices_exactly_clashes_witness :
  copy_themes world_ok cloned = (Ok tt, snd (copy_themes world_ok cloned)) /\
  resolve (fs cloned) source_themes =
    Found (Dir st_git
             [("twentytwenty",
               Dir st_git [("style.css", File st_git "body{}")]);
              ("twentyseventeen",
               Dir st_git [("style.css", File st_git "new")]);
              ("index.php", File st_git "<?php // Silence")]) /\
  stdout (snd (copy_themes world_ok cloned)) =
  (stdout cloned ++ [banner Copy; notice "twentyseventeen"])%list.
Proof.
  split; [reflexivity|]. split; [reflexivity|].
  apply (copy_themes_notices_exactly_clashes world_ok cloned _ st_git
           [("twentytwenty",
             Dir st_git [("style.css", File st_git "body{}")]);
            ("twentyseventeen",
             Dir st_git [("style.css", File st_git "new")]);
            ("index.php", File st_git "<?php // Silence")]).
  - reflexivity.
  - reflexivity.
  - repeat constructor; cbn; intuition discriminate.
Defined.

(** X5. A regular file in the place of [themes] stops the copy step at
    its first statement: [mkdir] raises [FileExistsError] before the clone
    is looked at, nothing is printed and nothing is changed. A run that got
    through the fetch step therefore ends with one line under the
    unexpected-error prefix, nothing copied and the clone still in
    [temp-wp]. *)
Theorem file_at_destination_stops_the_copy (w : world) (s s1 : state)
    (st : stat) (d : string) :
  clone_wordpress_repo w s = (Ok tt, s1) ->
  resolve (fs s) THEMES_TARGET = Found (File st d) ->
  (exists f, copy_themes w s1 = (Raise (FileExistsError f), s1)) /\
  exists line,
    run w s = (0, mkState (fs s1) (stdout s1 ++ [line])) /\
    String.prefix unexpected_error line = true /\
    String.prefix missing_tool line = false /\
    String.prefix command_failed line = false.
Proof.
  intros H1 Hf.
  assert (Ht : assoc "themes" (fs s1) = Some (File st d)).
  { rewrite (clone_keeps_themes _ _ _ _ H1).
    unfold THEMES_TARGET in Hf. rewrite resolve_one in Hf.
    destruct (assoc "themes" (fs s)); congruence. }
  pose proof (copy_themes_dest_file w s1 st d Ht) as H2.
  split; [eauto|].
  assert (Hm := main_after_raise w s _ _
                  (eq_trans (bind_ok _ _ _ _ _ _ H1)
                            (bind_raise _ _ _ _ _ _ H2)) eq_refl).
  exists (report_line (FileExistsError "themes")).
  unfold run. rewrite Hm. repeat split.
Qed.

Lemma file_at_destination_stops_the_copy_witness :
  clone_wordpress_repo world_ok themes_is_file
    = (Ok tt, snd (clone_wordpress_repo world_ok themes_is_file)) /\
  resolve (fs themes_is_file) THEMES_TARGET = Found (File st_root "") /\
  (exists f,
      copy_themes world_ok (snd (clone_wordpress_repo world_ok themes_is_file))
      = (Raise (FileExistsError f),
         snd (clone_wordpress_repo world_ok themes_is_file))) /\
  exists line,
    run world_ok themes_is_file =
      (0, mkState (fs (snd (clone_wordpress_repo world_ok themes_is_file)))
            (stdout (snd (clone_wordpress_repo world_ok themes_is_file))
             ++ [line])) /\
    String.prefix unexpected_error line = true /\
    String.prefix missing_tool line = false /\
    String.prefix command_failed line = false.
Proof.
  split; [reflexivity|]. split; [reflexivity|].
  apply (file_at_destination_stops_the_copy world_ok themes_is_file _
           st_root ""); reflexivity.
Defined.

(** X6. When the cleanup step returns, [temp-wp] was a directory, it no
    longer exists, and every path that starts with another name resolves
    as before: the step removes nothing else. *)
Theorem clean_temp_removes_only_temp (w : world) (s s' : state) :
  clean_temp w s = (Ok tt, s') ->
  (exists st cs, resolve (fs s) TEMP_DIR = Found (Dir st cs)) /\
  resolve (fs s') TEMP_DIR = NoEnt /\
  forall c p, c <> "temp-wp" ->
              resolve (fs s') (c :: p) = resolve (fs s) (c :: p).
Proof.
  rewrite clean_temp_eq. unfold TEMP_DIR. rewrite !resolve_one.
  destruct (assoc "temp-wp" (fs s)) as [[st d|st cs]|] eqn:Ht; cbv zeta;
    try discriminate.
  intros [= <-]. cbn [fs]. split; [eauto|]. split.
  - now rewrite assoc_del_same.
  - intros c p Hc. apply resolve_head. now apply assoc_del_other.
Qed.

Lemma clean_temp_removes_only_temp_witness :
  clean_temp world_ok cloned = (Ok tt, snd (clean_temp world_ok cloned)) /\
  (exists st cs, resolve (fs cloned) TEMP_DIR = Found (Dir st cs)) /\
  resolve (fs (snd (clean_temp world_ok cloned))) TEMP_DIR = NoEnt /\
  forall c p, c <> "temp-wp" ->
              resolve (fs (snd (clean_temp world_ok cloned))) (c :: p)
              = resolve (fs cloned) (c :: p).
Proof.
  split; [reflexivity|].
  apply (clean_temp_removes_only_temp world_ok cloned). reflexivity.
Defined.

(** X8. Fixing the permissions a second time changes nothing: after a
    successful fix, another one succeeds and leaves the working directory
    as it is. *)
Theorem fix_theme_permissions_again (w : world) (s s1 : state) :
  fix_theme_permissions w s = (Ok tt, s1) ->
  exists s2, fix_theme_permissions w s1 = (Ok tt, s2) /\ fs s2 = fs s1.
Proof.
  intros H. apply fix_ok_inv in H as (Hz & H0 & ->).
  apply sh_fix_success in H0 as (Hi & Hg & n & Ht & E). cbn [fs].
  set (n1 := chmod_R 509 (chown_R (user w) n)) in *.
  set (cwd1 := snd (sh_fix w (fs s))) in *.
  assert (Ht1 : assoc "themes" cwd1 = Some n1)
    by (rewrite E; apply assoc_set_same).
  assert (E1 : sh_fix w cwd1 = (0, cwd1)).
  { unfold sh_fix. rewrite Hi, Hg, Ht1. cbn [negb]. f_equal.
    unfold update. cbn [split_last alter].
    rewrite (map_entry_set _ _ _ _ Ht1).
    rewrite (map_entry_set _ _ _ _ (assoc_set_same _ _ _)).
    rewrite set_assoc_twice. apply set_assoc_id. rewrite Ht1. f_equal.
    unfold n1. now rewrite chown_chmod, chown_chown, chmod_chmod. }
  eexists. rewrite fix_with_zsh by assumption. cbv zeta. cbn [fs].
  rewrite E1. cbn [fst snd Z.eqb]. split; reflexivity.
Qed.

Lemma fix_theme_permissions_again_witness :
  fix_theme_permissions world_ok start
    = (Ok tt, snd (fix_theme_permissions world_ok start)) /\
  exists s2,
    fix_theme_permissions world_ok (snd (fix_theme_permissions world_ok start))
      = (Ok tt, s2) /\
    fs s2 = fs (snd (fix_theme_permissions world_ok start)).
Proof.
  split; [reflexivity|].
  apply (fix_theme_permissions_again world_ok start). reflexivity.
Defined.

(** X9. When the cleanup step is reached in a run, [temp-wp] is the
    directory holding the checkout: the fetch step put it there and the
    copy step, whatever it did, left it alone. *)
Theorem cleanup_finds_the_clone (w : world) (s s1 s2 : state)
    (r : result unit) :
  clone_wordpress_repo w s = (Ok tt, s1) ->
  copy_themes w s1 = (r, s2) ->
  exists st tree,
    remote w WP_REPO = Some tree /\
    resolve (fs s2) TEMP_DIR = Found (Dir st tree).
Proof.
  intros H1 H2.
  destruct (temp_after_copy _ _ _ _ _ H1 H2) as (st & tree & Hr & Ht).
  exists st, tree. split; [assumption|].
  unfold TEMP_DIR. now rewrite resolve_one, Ht.
Qed.

Lemma cleanup_finds_the_clone_witness :
  clone_wordpress_repo world_ok start = (Ok tt, cloned) /\
  copy_themes world_ok cloned = (Ok tt, snd (copy_themes world_ok cloned)) /\
  exists st tree,
    remote world_ok WP_REPO = Some tree /\
    resolve (fs (snd (copy_themes world_ok cloned))) TEMP_DIR
      = Found (Dir st tree).
Proof.
  split; [reflexivity|]. split; [reflexivity|].
  apply (cleanup_finds_the_clone world_ok start cloned _ (Ok tt));
    reflexivity.
Defined.

(** X10. A failure of the copy step is never reported as a command
    failure: the one line the run adds starts with the missing-tool or the
    unexpected-error prefix, not with the command-failure prefix. *)
Theorem copy_failure_is_no_command_failure (w : world) (s s' : state)
    (e : exn) :
  fails_at w s Copy e s' ->
  exists line,
    run w s = (0, mkState (fs s') (stdout s' ++ [line])) /\
    String.prefix command_failed line = false /\
    (String.prefix missing_tool line = true \/
     String.prefix unexpected_error line = true).
Proof.
  intros H. inversion H as [|s1 e0 s0 H1 H2| |]; subst.
  assert (He := copy_raises_exception _ _ _ _ H2).
  assert (Hm := main_after_raise w s _ _
                  (eq_trans (bind_ok _ _ _ _ _ _ H1)
                            (bind_raise _ _ _ _ _ _ H2)) He).
  exists (report_line e). unfold run. rewrite Hm.
  split; [reflexivity|].
  destruct (copy_themes_cases w s1)
    as [(st & d & _ & E)|(tst & T & _ & [(sst & S & _ & E)|(en & _ & E)])];
    rewrite E in H2; try discriminate; injection H2 as <- _;
    [|destruct en]; split; try reflexivity; auto.
Qed.

Lemma copy_failure_is_no_command_failure_witness :
  fails_at world_no_themes empty Copy
    (FileNotFoundError "temp-wp/wp-content/themes")
    (snd (body world_no_themes empty)) /\
  exists line,
    run world_no_themes empty =
      (0, mkState (fs (snd (body world_no_themes empty)))
            (stdout (snd (body world_no_themes empty)) ++ [line])) /\
    String.prefix command_failed line = false /\
    (String.prefix missing_tool line = true \/
     String.prefix unexpected_error line = true).
Proof.
  assert (H : fails_at world_no_themes empty Copy
                (FileNotFoundError "temp-wp/wp-content/themes")
                (snd (body world_no_themes empty)))
    by (eapply fails_copy; reflexivity).
  split; [exact H|].
  exact (copy_failure_is_no_command_failure world_no_themes empty _ _ H).
Defined.

(** X11. A run that stops in the copy step leaves the clone behind:
    [temp-wp] is still there afterwards, holding the checkout. *)
Theorem copy_failure_leaves_clone (w : world) (s s' : state) (e : exn) :
  fails_at w s Copy e s' ->
  exists st tree,
    remote w WP_REPO = Some tree /\
    resolve (fs (snd (run w s))) TEMP_DIR = Found (Dir st tree).
Proof.
  intros H.
  inversion H as [|s1 e0 s0 H1 H2| |]; subst.
  destruct (temp_after_copy _ _ _ _ _ H1 H2) as (st & tree & Hr & Ht).
  exists st, tree. split; [assumption|].
  assert (Hm : main w s = (Ok tt, reported e s')).
  { apply main_after_raise; [|eauto using copy_raises_exception].
    unfold body. now rewrite (bind_ok _ _ _ _ _ _ H1),
                   (bind_raise _ _ _ _ _ _ H2). }
  unfold run. rewrite Hm. cbn [snd reported fs].
  unfold TEMP_DIR. now rewrite resolve_one, Ht.
Qed.

Lemma copy_failure_leaves_clone_witness :
  fails_at world_no_themes themes_is_file Copy (FileExistsError "themes")
    (snd (body world_no_themes themes_is_file)) /\
  exists st tree,
    remote world_no_themes WP_REPO = Some tree /\
    resolve (fs (snd (run world_no_themes themes_is_file))) TEMP_DIR
      = Found (Dir st tree).
Proof.
  assert (H : fails_at world_no_themes themes_is_file Copy
                (FileExistsError "themes")
                (snd (body world_no_themes themes_is_file)))
    by (eapply fails_copy; reflexivity).
  split; [exact H|].
  exact (copy_failure_leaves_clone world_no_themes themes_is_file _ _ H).
Defined.

(** X12. A [temp-wp] that is already there and is not an empty directory
    blocks the run at the fetch step: [git] refuses it with status 128, the
    failure is reported as a command failure, and the working directory is
    left as it was. *)
Theorem stale_temp_blocks_the_run (w : world) (s : state) :
  git_installed w = true ->
  ((exists st d, resolve (fs s) TEMP_DIR = Found (File st d)) \/
   (exists st c cs, resolve (fs s) TEMP_DIR = Found (Dir st (c :: cs)))) ->
  run w s =
  (0, mkState (fs s)
        (stdout s ++
         [banner Fetch;
          command_failed ++
          str (CalledProcessError 128 (repr_list clone_argv))])).
Proof.
  intros Hg Ht.
  assert (E : git w (tl clone_argv) (fs s) = (128, fs s)).
  { unfold TEMP_DIR in Ht. rewrite resolve_one in Ht.
    unfold git, clone_argv, tl.
    destruct (assoc "temp-wp" (fs s)) as [[st d|st [|c cs]]|];
      try reflexivity;
      destruct Ht as [(st' & d' & Ht)|(st' & c' & cs' & Ht)]; discriminate. }
  assert (H1 := clone_with_git w s Hg). rewrite E in H1. cbn [fst snd] in H1.
  change (128 =? 0) with false in H1.
  assert (Hm := main_after_raise w s _ _
                  (bind_raise _ _ _ _ _ _ H1) eq_refl).
  unfold run. rewrite Hm. unfold reported. cbn [fs stdout].
  now rewrite <- app_assoc.
Qed.

Lemma stale_temp_blocks_the_run_witness :
  git_installed world_ok = true /\
  (exists st c cs,
      resolve (fs stale_temp) TEMP_DIR = Found (Dir st (c :: cs))) /\
  run world_ok stale_temp =
  (0, mkState (fs stale_temp)
        (stdout stale_temp ++
         [banner Fetch;
          command_failed ++
          str (CalledProcessError 128 (repr_list clone_argv))])).
Proof.
  split; [reflexivity|].
  split; [eexists; eexists; eexists; reflexivity|].
  apply (stale_temp_blocks_the_run world_ok stale_temp); [reflexivity|].
  right. eexists. eexists. eexists. reflexivity.
Defined.

(** X13. When [/bin/zsh] is there but [sudo] is missing or refuses, and the
    first three steps went through, the shell exits with status 127
    (missing) or 1 (refused) and the run ends with [temp-wp] removed,
    [themes] exactly as the copy step left it, and the failure reported
    under the command-failure prefix. *)
Theorem sudo_failure_is_command_failure (w : world) (s s1 s2 s3 : state) :
  zsh_installed w = true ->
  sudo_installed w && sudo_granted w = false ->
  clone_wordpress_repo w s = (Ok tt, s1) ->
  copy_themes w s1 = (Ok tt, s2) ->
  clean_temp w s2 = (Ok tt, s3) ->
  exists s',
    run w s = (0, s') /\
    resolve (fs s') TEMP_DIR = NoEnt /\
    resolve (fs s') THEMES_TARGET = resolve (fs s2) THEMES_TARGET /\
    stdout s' =
      (stdout s3 ++
       [banner Fix;
        (command_failed ++
         str (CalledProcessError (sudo_status w) fix_command))%string])%list.
Proof.
  intros Hz Hsudo H1 H2 H3.
  assert (Hst : fst (sh_fix w (fs s3)) = sudo_status w)
    by (now rewrite sh_fix_status, Hsudo).
  assert (Hne : sudo_status w <> 0)
    by (unfold sudo_status; destruct (sudo_installed w); discriminate).
  assert (H4 := fix_with_zsh w s3 Hz). cbv zeta in H4.
  rewrite Hst in H4. apply Z.eqb_neq in Hne as Hne'. rewrite Hne' in H4.
  rewrite sh_fix_failure_frame in H4 by (now rewrite Hst).
  assert (Hm : main w s =
               (Ok tt, reported (CalledProcessError (sudo_status w) fix_command)
                  (mkState (fs s3) (stdout s3 ++ [banner Fix])))).
  { apply main_after_raise; [|reflexivity]. unfold body.
    now rewrite (bind_ok _ _ _ _ _ _ H1), (bind_ok _ _ _ _ _ _ H2),
      (bind_ok _ _ _ _ _ _ H3), (bind_raise _ _ _ _ _ _ H4). }
  eexists. unfold run. rewrite Hm. split; [reflexivity|].
  apply clean_temp_ok in H3. subst s3. unfold reported. cbn [fs stdout].
  unfold TEMP_DIR, THEMES_TARGET. rewrite !resolve_one.
  rewrite assoc_del_same, assoc_del_other by (symmetry; apply temp_not_themes).
  repeat split. now rewrite <- app_assoc.
Qed.

Lemma sudo_failure_is_command_failure_witness :
  zsh_installed world_no_sudo = true /\
  sudo_installed world_no_sudo && sudo_granted world_no_sudo = false /\
  clone_wordpress_repo world_no_sudo start = (Ok tt, cloned) /\
  exists s2 s3,
    copy_themes world_no_sudo cloned = (Ok tt, s2) /\
    clean_temp world_no_sudo s2 = (Ok tt, s3) /\
    exists s',
      run world_no_sudo start = (0, s') /\
      resolve (fs s') TEMP_DIR = NoEnt /\
      resolve (fs s') THEMES_TARGET = resolve (fs s2) THEMES_TARGET /\
      stdout s' =
        (stdout s3 ++
         [banner Fix;
          (command_failed ++
           str (CalledProcessError (sudo_status world_no_sudo)
                  fix_command))%string])%list.
Proof.
  split; [reflexivity|]. split; [reflexivity|]. split; [reflexivity|].
  exists (snd (copy_themes world_no_sudo cloned)),
         (snd (clean_temp world_no_sudo
                 (snd (copy_themes world_no_sudo cloned)))).
  split; [reflexivity|]. split; [reflexivity|].
  apply (sudo_failure_is_command_failure world_no_sudo start cloned);
    reflexivity.
Defined.

(** X14. What a successful run needs: when all four steps go through,
    [git] is installed, [temp-wp] was missing or an empty directory, the
    repository could be fetched and its checkout has a directory
    [wp-content/themes], no regular file stood in the place of [themes],
    and [/bin/zsh] and a [sudo] that lets the user through are there. *)
Theorem run_succeeds_only_if (w : world) (s s' : state) :
  body w s = (Ok tt, s') ->
  git_installed w = true /\
  (resolve (fs s) TEMP_DIR = NoEnt \/
   exists st, resolve (fs s) TEMP_DIR = Found (Dir st [])) /\
  (exists tree sst S,
      remote w WP_REPO = Some tree /\
      resolve tree ["wp-content"; "themes"] = Found (Dir sst S)) /\
  (forall st d, resolve (fs s) THEMES_TARGET <> Found (File st d)) /\
  zsh_installed w = true /\
  sudo_installed w = true /\
  sudo_granted w = true.
Proof.
  intros Hb. unfold body in Hb.
  apply bind_ok_inv in Hb as ([] & s1 & H1 & Hb).
  apply bind_ok_inv in Hb as ([] & s2 & H2 & Hb).
  apply bind_ok_inv in Hb as ([] & s3 & H3 & Hb).
  apply bind_ok_inv in Hb as ([] & s4 & H4 & _).
  assert (Hg : git_installed w = true).
  { destruct (git_installed w) eqn:Hg; [reflexivity|].
    rewrite clone_no_git in H1 by assumption. discriminate. }
  assert (H1' := H1). rewrite clone_with_git in H1' by assumption.
  destruct (fst (git w (tl clone_argv) (fs s)) =? 0) eqn:E0;
    [|discriminate].
  apply Z.eqb_eq, git_clone_status in E0 as [Htemp _].
  apply clone_ok in H1 as (st & tree & Hr & ->).
  destruct (copy_themes_cases w
              (mkState (set_assoc "temp-wp" (Dir st tree) (fs s))
                 (stdout s ++ ["🚀 Cloning WordPress repo..."])))
    as [(st' & d & _ & E)|(tst & T & Hd & [(sst & S & Hs & E)|(en & _ & E)])];
    rewrite E in H2; try discriminate.
  cbn [fs] in Hs, Hd.
  apply fix_ok_inv in H4 as (Hz & H0 & _).
  apply sh_fix_success in H0 as (Hi & Hgr & _).
  repeat split; auto.
  - exists tree, sst, S. split; [assumption|].
    rewrite <- Hs. symmetry.
    apply (resolve_in_clone _ st), assoc_set_same.
  - intros st' d Hf.
    assert (Hn : dest_before w (set_assoc "temp-wp" (Dir st tree) (fs s))
                 = None).
    { apply dest_before_none. exists st', d.
      unfold THEMES_TARGET in *. rewrite resolve_one in *.
      rewrite assoc_set_other; [assumption|].
      intros E'. symmetry in E'. now apply temp_not_themes in E'. }
    congruence.
Qed.

Lemma run_succeeds_only_if_witness :
  body world_ok start = (Ok tt, snd (body world_ok start)) /\
  git_installed world_ok = true /\
  (resolve (fs start) TEMP_DIR = NoEnt \/
   exists st, resolve (fs start) TEMP_DIR = Found (Dir st [])) /\
  (exists tree sst S,
      remote world_ok WP_REPO = Some tree /\
      resolve tree ["wp-content"; "themes"] = Found (Dir sst S)) /\
  (forall st d, resolve (fs start) THEMES_TARGET <> Found (File st d)) /\
  zsh_installed world_ok = true /\
  sudo_installed world_ok = true /\
  sudo_granted world_ok = true.
Proof.
  split; [reflexivity|].
  apply (run_succeeds_only_if world_ok start (snd (body world_ok start))).
  reflexivity.
Defined.

(** X15. No run destroys a theme that was there: an entry the destination
    had before the run is still there after it, with the same shape, names
    and file data, whatever the run did. When the run stopped before the
    permission fix, the entry is exactly as it was. *)
Theorem run_keeps_existing_themes (w : world) (s : state) (X : string)
    (n : node) :
  resolve (fs s) (THEMES_TARGET / X)%path = Found n ->
  exists n',
    resolve (fs (snd (run w s))) (THEMES_TARGET / X)%path = Found n' /\
    forget n' = forget n /\
    (forall k e s', fails_at w s k e s' -> k <> Fix -> n' = n).
Proof.
  intros Hn.
  destruct (body w s) as [[[]|e] s1] eqn:Hb.
  - pose proof (body_keeps_entry _ _ _ _ X n Hb Hn) as H.
    unfold run. rewrite (main_after_success _ _ _ Hb). cbn [snd].
    eexists. split; [exact H|]. split.
    + now rewrite forget_chmod, forget_chown.
    + intros k e s' Hf _. exfalso. unfold body in Hb.
      destruct Hf as [e s' H1|s1' e s' H1 H2|s1' s2 e s' H1 H2 H3
                     |s1' s2 s3 e s' H1 H2 H3 H4].
      * rewrite (bind_raise _ _ _ _ _ _ H1) in Hb. discriminate.
      * rewrite (bind_ok _ _ _ _ _ _ H1), (bind_raise _ _ _ _ _ _ H2) in Hb.
        discriminate.
      * rewrite (bind_ok _ _ _ _ _ _ H1), (bind_ok _ _ _ _ _ _ H2),
          (bind_raise _ _ _ _ _ _ H3) in Hb. discriminate.
      * rewrite (bind_ok _ _ _ _ _ _ H1), (bind_ok _ _ _ _ _ _ H2),
          (bind_ok _ _ _ _ _ _ H3), (bind_raise _ _ _ _ _ _ H4) in Hb.
        discriminate.
  - pose proof (body_keeps_entry _ _ _ _ X n Hb Hn) as H.
    unfold run.
    rewrite (main_after_raise _ _ _ _ Hb (body_raises_exception _ _ _ _ Hb)).
    cbn [snd reported fs].
    exists n. split; [exact H|]. split; [reflexivity|]. reflexivity.
Qed.

Lemma run_keeps_existing_themes_witness :
  resolve (fs start) (THEMES_TARGET / "twentyseventeen")%path
    = Found old_theme /\
  exists n',
    resolve (fs (snd (run world_flat start)))
      (THEMES_TARGET / "twentyseventeen")%path = Found n' /\
    forget n' = forget old_theme /\
    (forall k e s', fails_at world_flat start k e s' -> k <> Fix ->
                    n' = old_theme).
Proof.
  split; [reflexivity|].
  apply (run_keeps_existing_themes world_flat start). reflexivity.
Defined.

(** X16. The line [✅ All done!] is printed exactly by the runs that went
    through all four steps: it is among the lines a run adds to the output
    if and only if no step failed. *)
Theorem all_done_iff_success (w : world) (s : state) :
  exists printed,
    stdout (snd (run w s)) = (stdout s ++ printed)%list /\
    (In "✅ All done!" printed <-> exists s', body w s = (Ok tt, s')).
Proof.
  assert (Hnb : forall j, banner j <> "✅ All done!")
    by (intros []; discriminate).
  assert (Hnn : forall l, (l = banner Copy \/ exists y, l = notice y) ->
                          l <> "✅ All done!").
  { intros l [->|(y & ->)]; discriminate. }
  assert (Hnr : forall e, report_line e <> "✅ All done!")
    by (intros [rc cmd|[] f|]; discriminate).
  destruct (body w s) as [[[]|e] s'] eqn:Hb.
  - unfold run. rewrite (main_after_success _ _ _ Hb). cbn [snd].
    unfold body in Hb.
    apply bind_ok_inv in Hb as ([] & s1 & H1 & Hb).
    apply bind_ok_inv in Hb as ([] & s2 & H2 & Hb).
    apply bind_ok_inv in Hb as ([] & s3 & H3 & Hb).
    apply bind_ok_inv in Hb as ([] & s4 & H4 & Hb).
    injection Hb as <-. cbn [stdout].
    apply clone_prints in H1. apply copy_prints in H2 as (pr & H2 & _).
    apply clean_prints in H3. apply fix_prints in H4.
    rewrite H4, H3, H2, H1, <- !app_assoc.
    eexists. split; [reflexivity|]. split; [eauto|].
    intros _. cbn [app]. right. apply in_or_app. right.
    cbn. auto.
  - unfold run.
    rewrite (main_after_raise _ _ _ _ Hb (body_raises_exception _ _ _ _ Hb)).
    cbn [snd reported stdout].
    assert (Hout : exists printed,
               stdout s' = (stdout s ++ printed)%list /\
               ~ In "✅ All done!" printed).
    { destruct (body_stops _ _ _ _ Hb)
        as [H1|(s1 & H1 & [H2|(s2 & H2 & [H3|(s3 & H3 & H4)])])].
      - apply clone_prints in H1. rewrite H1.
        eexists. split; [reflexivity|].
        intros [Hin|[]]. now apply (Hnb Fetch).
      - apply clone_prints in H1. apply copy_prints in H2 as (pr & H2 & Hpr).
        rewrite H2, H1, <- !app_assoc.
        eexists. split; [reflexivity|]. cbn [app].
        intros [Hin|Hin]; [now apply (Hnb Fetch)|].
        now apply (Hnn _ (Hpr _ Hin)).
      - apply clone_prints in H1. apply copy_prints in H2 as (pr & H2 & Hpr).
        apply clean_prints in H3.
        rewrite H3, H2, H1, <- !app_assoc.
        eexists. split; [reflexivity|]. cbn [app].
        intros [Hin|Hin]; [now apply (Hnb Fetch)|].
        apply in_app_or in Hin as [Hin|[Hin|[]]].
        + now apply (Hnn _ (Hpr _ Hin)).
        + now apply (Hnb Cleanup).
      - apply clone_prints in H1. apply copy_prints in H2 as (pr & H2 & Hpr).
        apply clean_prints in H3. apply fix_prints in H4.
        rewrite H4, H3, H2, H1, <- !app_assoc.
        eexists. split; [reflexivity|]. cbn [app].
        intros [Hin|Hin]; [now apply (Hnb Fetch)|].
        apply in_app_or in Hin as [Hin|[Hin|[Hin|[]]]].
        + now apply (Hnn _ (Hpr _ Hin)).
        + now apply (Hnb Cleanup).
        + now apply (Hnb Fix). }
    destruct Hout as (printed & Hout & Hnot).
    exists (printed ++ [report_line e])%list.
    rewrite Hout, <- app_assoc. split; [reflexivity|]. split.
    + intros Hin. apply in_app_or in Hin as [Hin|[Hin|[]]].
      * contradiction.
      * now apply Hnr in Hin.
    + intros (s0 & Hs0). discriminate.
Qed.

Lemma all_done_iff_success_witness :
  exists printed,
    stdout (snd (run world_no_git start)) = (stdout start ++ printed)%list /\
    (In "✅ All done!" printed <->
     exists s', body world_no_git start = (Ok tt, s')).
Proof. exact (all_done_iff_success world_no_git start). Defined.

End Extra.
